(** * Bluesky MCP server and its line-ending proxy: a shallow embedding

    Two programs are embedded here.

    - [mcp_wrapper.py]: a proxy that launches the tool server as a child
      process, pumps the host's standard input to the child byte by byte,
      and pumps the child's standard output back to the host, dropping
      carriage returns on the way (module [Wrapper]).
    - [bluesky_mcp.py]: the tool server, a thin layer over a remote
      social-network client (module [Bluesky]).

    Python values, exceptions and the few built-ins both programs use
    live in module [Py]. *)

From Stdlib Require Import List String Ascii ZArith Bool Lia.
From Stdlib Require Import Strings.Byte.
From Stdlib Require Import DecimalString.
Import ListNotations.

Set Warnings "-register-all".

Local Open Scope Z_scope.
Local Open Scope string_scope.
Local Open Scope list_scope.

(* ================================================================== *)
(** * Python runtime: exceptions and results *)
(* ================================================================== *)

Module Py.

(** A raised exception: its class name, the text [str(e)] gives, and
    whether the class derives from [Exception] (what [except Exception]
    catches; [KeyboardInterrupt] and [SystemExit] do not). *)
Record exn : Type := Exn {
  exn_class : string;
  exn_str : string;
  exn_is_Exception : bool
}.

Definition ValueError (msg : string) : exn := Exn "ValueError" msg true.
Definition TypeError (msg : string) : exn := Exn "TypeError" msg true.
Definition AttributeError (msg : string) : exn := Exn "AttributeError" msg true.
Definition RecursionError (msg : string) : exn := Exn "RecursionError" msg true.

(** The outcome of evaluating an expression: a value or a raise. *)
Inductive result (A : Type) : Type :=
| Ok (a : A)
| Raise (e : exn).

Arguments Ok {A} a.
Arguments Raise {A} e.

(** ** Values *)

(** The values the server handles: JSON-like data, mappings ([dict]),
    and objects with named attributes (the models the remote client
    returns).  A mapping keeps its entries in insertion order, which is
    the order [json.dumps] prints them in.  [VMethod] is a bound method
    of a built-in type, which [getattr] can hand back. *)
Inductive value : Type :=
| VNone
| VBool (b : bool)
| VInt (n : Z)
| VStr (s : string)
| VList (items : list value)
| VDict (entries : list (string * value))
| VObj (attrs : list (string * value))
| VMethod (name : string).

(** A Python [dict] with string keys. *)
Definition dict : Type := list (string * value).

(** First entry under key [k]. *)
Fixpoint assoc (k : string) (entries : list (string * value)) : option value :=
  match entries with
  | [] => None
  | (k', v) :: rest => if String.eqb k k' then Some v else assoc k rest
  end.

(** [d[k] = v]: overwrite in place, or append a new entry. *)
Fixpoint dict_set (k : string) (v : value) (entries : list (string * value))
  : list (string * value) :=
  match entries with
  | [] => [(k, v)]
  | (k', v') :: rest =>
      if String.eqb k k' then (k, v) :: rest else (k', v') :: dict_set k v rest
  end.

(** [list(d.keys())]. *)
Definition keys (entries : list (string * value)) : list string :=
  map fst entries.

(** [d.get(k, default)]. *)
Definition dict_get (entries : list (string * value)) (k : string)
  (default : value) : value :=
  match assoc k entries with
  | Some v => v
  | None => default
  end.

(** [d[k]]. *)
Definition subscript (entries : list (string * value)) (k : string)
  : result value :=
  match assoc k entries with
  | Some v => Ok v
  | None => Raise (Exn "KeyError" k true)
  end.

(** [bool(v)]: [None], [False], zero and empty containers are false;
    objects and methods are true. *)
Definition truthy (v : value) : bool :=
  match v with
  | VNone => false
  | VBool b => b
  | VInt n => negb (Z.eqb n 0)
  | VStr s => negb (String.eqb s "")
  | VList items => match items with [] => false | _ => true end
  | VDict entries => match entries with [] => false | _ => true end
  | VObj _ => true
  | VMethod _ => true
  end.

(** [a or b]. *)
Definition py_or (a b : value) : value := if truthy a then a else b.

(** Attributes of built-in types.  Of all the attribute names the server
    looks up, the built-in types define exactly one: [str.title]. *)
Definition builtin_attr (obj : value) (name : string) : option value :=
  match obj with
  | VStr _ => if String.eqb name "title" then Some (VMethod "title") else None
  | _ => None
  end.

(** Attribute lookup, [None] when the attribute does not exist. *)
Definition find_attr (obj : value) (name : string) : option value :=
  match obj with
  | VObj attrs => assoc name attrs
  | _ => builtin_attr obj name
  end.

(** [getattr(obj, name, default)]. *)
Definition getattr (obj : value) (name : string) (default : value) : value :=
  match find_attr obj name with
  | Some v => v
  | None => default
  end.

(** [hasattr(obj, name)]. *)
Definition hasattr (obj : value) (name : string) : bool :=
  match find_attr obj name with
  | Some _ => true
  | None => false
  end.

(** [obj.name]. *)
Definition attr (obj : value) (name : string) : result value :=
  match find_attr obj name with
  | Some v => Ok v
  | None => Raise (AttributeError name)
  end.

(** ** Strings *)

(** [len(s)].  A string is modelled as a sequence of 8-bit characters. *)
Definition len (s : string) : Z := Z.of_nat (String.length s).

(** [needle in hay]. *)
Fixpoint contains (needle hay : string) : bool :=
  if String.prefix needle hay then true
  else match hay with
       | EmptyString => false
       | String _ rest => contains needle rest
       end.

(** [s.endswith(suffix)]. *)
Fixpoint endswith (s suffix : string) : bool :=
  if String.eqb s suffix then true
  else match s with
       | EmptyString => false
       | String _ rest => endswith rest suffix
       end.

(** [s.replace(old, new)] for a non-empty [old]: left to right, without
    overlap.  [skip] counts the characters of a match still to drop. *)
Fixpoint replace_from (skip : nat) (old new s : string) : string :=
  match s with
  | EmptyString => EmptyString
  | String c rest =>
      match skip with
      | S k => replace_from k old new rest
      | O =>
          if String.prefix old s
          then new ++ replace_from (Nat.pred (String.length old)) old new rest
          else String c (replace_from O old new rest)
      end
  end.

Definition replace (s old new : string) : string := replace_from O old new s.

(** [str(n)] for an integer. *)
Definition str_of_int (n : Z) : string := NilZero.string_of_int (Z.to_int n).

(** [for x in v]: the items of a list, the characters of a string, the
    keys of a mapping.  Other values are not iterable. *)
Fixpoint chars (s : string) : list value :=
  match s with
  | EmptyString => []
  | String c rest => VStr (String c EmptyString) :: chars rest
  end.

Definition iter (v : value) : result (list value) :=
  match v with
  | VList items => Ok items
  | VStr s => Ok (chars s)
  | VDict entries => Ok (map (fun kv => VStr (fst kv)) entries)
  | _ => Raise (TypeError "object is not iterable")
  end.

(** [v[:n]] on a string or a list. *)
Definition slice_to (n : nat) (v : value) : result value :=
  match v with
  | VStr s => Ok (VStr (String.substring 0 n s))
  | VList items => Ok (VList (firstn n items))
  | _ => Raise (TypeError "object is not subscriptable")
  end.

(** Nesting depth of a value, a bound on any descent through it. *)
Fixpoint height (v : value) : nat :=
  match v with
  | VList items => S (fold_right (fun x h => Nat.max (height x) h) O items)
  | VDict entries => S (fold_right (fun kv h => Nat.max (height (snd kv)) h) O entries)
  | VObj attrs => S (fold_right (fun kv h => Nat.max (height (snd kv)) h) O attrs)
  | _ => O
  end.

(** ** JSON *)

(** What [json.dumps] accepts: scalars, and lists and mappings of what it
    accepts. *)
Fixpoint serialisable (v : value) : bool :=
  match v with
  | VNone | VBool _ | VInt _ | VStr _ => true
  | VList items => forallb serialisable items
  | VDict entries => forallb (fun kv => serialisable (snd kv)) entries
  | VObj _ | VMethod _ => false
  end.

(** [json.dumps(v, ensure_ascii=False, indent=2)], up to the layout of
    the text: the document that is written out, or a [TypeError]. *)
Definition json_dumps (v : value) : result value :=
  if serialisable v then Ok v
  else Raise (TypeError "Object is not JSON serializable").

End Py.

Import Py.

(* ================================================================== *)
(** * mcp_wrapper.py *)
(* ================================================================== *)

Module Wrapper.

(** ** Pipes *)

(** What one [read(1)] on an unbuffered binary pipe gives: one byte, or
    an I/O error.  A readable pipe is the list of the outcomes still to
    come; when the list is exhausted [read(1)] returns [b''], the end of
    the stream. *)
Inductive read_event : Type :=
| Data (b : byte)
| ReadError.

Definition reader : Type := list read_event.

(** A writable pipe: the bytes delivered so far, how many write-and-flush
    units it still accepts before it breaks ([None]: it never breaks),
    and whether [close()] was called on it. *)
Record writer : Type := Writer {
  written : list byte;
  budget : option nat;
  closed : bool
}.

Definition fresh_writer : writer := Writer [] None false.

(** [w.write(data); w.flush()] for a one-byte [data]: [None] when the
    pipe raises, in which case the byte is not delivered. *)
Definition write_flush (data : byte) (w : writer) : option writer :=
  match budget w with
  | Some O => None
  | Some (S k) => Some (Writer (written w ++ [data]) (Some k) (closed w))
  | None => Some (Writer (written w ++ [data]) None (closed w))
  end.

(** [w.close()], any exception swallowed. *)
Definition close (w : writer) : writer :=
  Writer (written w) (budget w) true.

(** The byte [b'\r']. *)
Definition CR : byte := x0d.

(** [data != b'\r']. *)
Definition kept (data : byte) : bool := negb (Byte.eqb data CR).

(** ** The two pumps *)

(** [forward_stdin]: read the host's input one byte at a time and write
    each byte to the child's input; stop at end of stream or at the first
    exception; close the child's input in every case ([finally]). *)
Fixpoint forward_stdin_loop (stdin : reader) (child_in : writer) : writer :=
  match stdin with
  | [] => child_in                              (* not data: break *)
  | ReadError :: _ => child_in                  (* except Exception: pass *)
  | Data data :: rest =>
      match write_flush data child_in with
      | Some child_in' => forward_stdin_loop rest child_in'
      | None => child_in                        (* except Exception: pass *)
      end
  end.

Definition forward_stdin (stdin : reader) (child_in : writer) : writer :=
  close (forward_stdin_loop stdin child_in).

(** [forward_stdout]: read the child's output one byte at a time and
    write to the host every byte that is not [b'\r']; stop at end of
    stream or at the first exception. *)
Fixpoint forward_stdout (child_out : reader) (stdout : writer) : writer :=
  match child_out with
  | [] => stdout                                (* not data: break *)
  | ReadError :: _ => stdout                    (* except Exception: pass *)
  | Data data :: rest =>
      if kept data then
        match write_flush data stdout with
        | Some stdout' => forward_stdout rest stdout'
        | None => stdout                        (* except Exception: pass *)
        end
      else forward_stdout rest stdout
  end.

(** A stream that delivers the bytes [bs] and then ends. *)
Definition stream_of (bs : list byte) : reader := map Data bs.

(** The bytes a stream delivers before it ends or fails. *)
Fixpoint payload (events : reader) : list byte :=
  match events with
  | Data b :: rest => b :: payload rest
  | _ => []
  end.

(** The child-to-host filter as a function on byte sequences: what the
    host receives when the child emits [bs] and no pipe fails. *)
Definition cr_strip (bs : list byte) : list byte :=
  written (forward_stdout (stream_of bs) fresh_writer).

(** The host-to-child pump as a function on byte sequences. *)
Definition passthrough (bs : list byte) : list byte :=
  written (forward_stdin (stream_of bs) fresh_writer).

(** ** The proxy process *)






End Wrapper.

(* ================================================================== *)
(** * bluesky_mcp.py *)
(* ================================================================== *)

Module Bluesky.

(** ** The remote client *)

(** The body of a post handed to [client.send_post]: a plain string, or
    what a [TextBuilder] accumulated. *)
Inductive segment : Type :=
| Text (s : string)
| Link (text url : string).

Inductive post_text : Type :=
| Plain (text : string)
| Built (segments : list segment).

(** One call on the remote client, with the arguments the server passes. *)
Inductive call : Type :=
| Login (handle password : string)
| SendPost (text : post_text) (reply_to : option value)
| DeletePost (post_uri : string)
| GetTimeline (limit : Z) (cursor : option string)
| GetAuthorFeed (actor : string) (limit : Z) (cursor : option string)
| GetPostThread (uri : string) (depth : option Z)
| Like (uri cid : value)
| Unlike (post_uri : string)
| Repost (uri cid : value)
| Unrepost (post_uri : string)
| ListNotifications (limit : Z) (cursor : option string)
| UpdateSeen (seenAt : string)
| GetUnreadCount
| GetProfile (actor : string)
| Follow (did : value)
| Unfollow (did : value)
| SearchPosts (q : string) (limit : Z) (cursor : option string)
| SearchActors (q : string) (limit : Z) (cursor : option string).

(** The process-wide state: the [BlueskyClient] singleton's two slots
    and the calls issued on the remote client so far, oldest first. *)
Record world : Type := World {
  client : bool;          (* _client is not None *)
  logged_in : bool;       (* _logged_in *)
  log : list call
}.

Definition fresh : world := World false false [].

(** A computation of the server: it may raise, and it may change the
    world. *)
Definition M (A : Type) : Type := world -> result A * world.

Definition ret {A} (a : A) : M A := fun w => (Ok a, w).

Definition bind {A B} (c : M A) (k : A -> M B) : M B :=
  fun w =>
    match c w with
    | (Ok a, w') => k a w'
    | (Raise e, w') => (Raise e, w')
    end.

Definition lift {A} (r : result A) : M A := fun w => (r, w).

(** [try: body except Exception as e: handler(e)]. *)
Definition try_except {A} (body : M A) (handler : exn -> M A) : M A :=
  fun w =>
    match body w with
    | (Ok a, w') => (Ok a, w')
    | (Raise e, w') =>
        if exn_is_Exception e then handler e w' else (Raise e, w')
    end.

Definition bind_result {A B} (r : result A) (k : A -> result B) : result B :=
  match r with
  | Ok a => k a
  | Raise e => Raise e
  end.

Notation "x <- c ;; k" := (bind c (fun x => k))
  (at level 61, c at next level, right associativity).
Notation "x <-? r ;; k" := (bind_result r (fun x => k))
  (at level 61, r at next level, right associativity).

(** [for x in xs: f(x)] collecting the results, stopping at the first
    raise. *)
Fixpoint map_result {A B} (f : A -> result B) (xs : list A) : result (list B) :=
  match xs with
  | [] => Ok []
  | x :: rest =>
      y <-? f x ;;
      ys <-? map_result f rest ;;
      Ok (y :: ys)
  end.

(** [s] or [None] as a value. *)
Definition of_opt (o : option string) : value :=
  match o with
  | Some s => VStr s
  | None => VNone
  end.

(** Truth of an [Optional[str]]: set and not empty. *)
Definition nonempty (o : option string) : bool := truthy (of_opt o).

(** The world after one more call was issued. *)
Definition called (w : world) (c : call) : world :=
  World (client w) (logged_in w) (log w ++ [c]).

(** A computation that leaves the world as it found it. *)
Definition silent {A} (c : M A) : Prop := forall w, snd (c w) = w.



Section Server.

(** [str()] and [repr()] of lists, mappings, objects and methods are not
    modelled: everything below holds whatever text they give. *)
Variable repr : value -> string.

(** The process environment behind [os.getenv]. *)
Variable environ : string -> option string.

(** The remote service: its answer to a call, given the calls that came
    before.  An answer is a value or a raised exception. *)
Variable remote : list call -> call -> result value.

(** [datetime.now(timezone.utc).isoformat()]. *)
Variable utcnow_isoformat : string.

(** [str(v)]. *)
Definition str (v : value) : string :=
  match v with
  | VNone => "None"
  | VBool true => "True"
  | VBool false => "False"
  | VInt n => str_of_int n
  | VStr s => s
  | _ => repr v
  end.

(** A call on the remote client: it is recorded, then answered. *)
Definition invoke (c : call) : M value :=
  fun w => (remote (log w) c, World (client w) (logged_in w) (log w ++ [c])).

(** ** The client singleton *)

Definition missing_credentials : exn :=
  ValueError ("Missing BLUESKY_HANDLE or BLUESKY_PASSWORD environment variables. "
              ++ "Please set them before using this MCP server.").

(** The string held by an [Optional[str]] known to be set. *)
Definition text_of (o : option string) : string :=
  match o with
  | Some s => s
  | None => ""
  end.

(** [BlueskyClient.get_client]. *)
Definition get_client : M unit :=
  fun w =>
    let w := if client w then w else World true (logged_in w) (log w) in
    if negb (logged_in w) then
      let handle := environ "BLUESKY_HANDLE" in
      let password := environ "BLUESKY_PASSWORD" in
      if negb (nonempty handle) || negb (nonempty password)
      then (Raise missing_credentials, w)
      else
        match invoke (Login (text_of handle) (text_of password)) w with
        | (Ok _, w') => (Ok tt, World (client w') true (log w'))
        | (Raise e, w') => (Raise e, w')
        end
    else (Ok tt, w).

(** ** Field extraction *)

(** The local helper [get(obj, attr, default)] of both formatters. *)
Definition get (obj : value) (attr : string) (default : value) : value :=
  match obj with
  | VDict entries => dict_get entries attr default
  | _ => getattr obj attr default
  end.

Definition empty : value := VStr "".

(** [path.split(".")]: the segments between the dots, at least one. *)
Fixpoint split_dots (path : string) : list string :=
  match path with
  | EmptyString => [EmptyString]
  | String c rest =>
      if Ascii.eqb c "." then EmptyString :: split_dots rest
      else match split_dots rest with
           | part :: parts => String c part :: parts
           | [] => [String c EmptyString]
           end
  end.

(** The loop of [_get_attr] over the parts of the path. *)
Fixpoint _get_attr_loop (current : value) (parts : list string)
  (default : value) : value :=
  match parts with
  | [] => current
  | part :: parts =>
      let current :=
        match current with
        | VDict entries => dict_get entries part VNone
        | _ => getattr current part VNone
        end in
      match current with
      | VNone => default
      | _ => _get_attr_loop current parts default
      end
  end.

(** [_get_attr]. *)
Definition _get_attr (obj : value) (path : string) (default : value) : value :=
  _get_attr_loop obj (split_dots path) default.

(** [format_post]. *)
Definition format_post (post_data : value) (include_reply_context : bool)
  : result dict :=
  let post :=
    match post_data with
    | VDict entries => dict_get entries "post" post_data
    | _ => getattr post_data "post" post_data
    end in
  let author := get post "author" VNone in
  let record := get post "record" VNone in
  let result :=
    [ ("uri", get post "uri" empty);
      ("cid", get post "cid" empty);
      ("author", VDict
         [ ("handle", get author "handle" empty);
           ("display_name",
              get author "display_name"
                (get author "displayName" (get author "handle" empty)));
           ("avatar", get author "avatar" empty) ]);
      ("text", get record "text" empty);
      ("created_at", get record "created_at" (get record "createdAt" empty));
      ("likes", get post "like_count" (get post "likeCount" (VInt 0)));
      ("reposts", get post "repost_count" (get post "repostCount" (VInt 0)));
      ("replies", get post "reply_count" (get post "replyCount" (VInt 0)));
      ("indexed_at", get post "indexed_at" (get post "indexedAt" empty)) ] in
  let embed := get post "embed" VNone in
  result <-?
    (if truthy embed then
       let embed_type :=
         py_or (get embed "$type" VNone) (getattr embed "py_type" empty) in
       if contains "external" (str embed_type) || hasattr embed "external" then
         let external := get embed "external" VNone in
         Ok (dict_set "embed"
               (VDict [ ("type", VStr "link");
                        ("url", get external "uri" empty);
                        ("title", get external "title" empty);
                        ("description", get external "description" empty) ])
               result)
       else if contains "images" (str embed_type) || hasattr embed "images" then
         let images := get embed "images" (VList []) in
         imgs <-? iter images ;;
         Ok (dict_set "embed"
               (VDict [ ("type", VStr "images");
                        ("images", VList (map (fun img =>
                            VDict [ ("url", get img "fullsize" empty);
                                    ("alt", get img "alt" empty) ]) imgs)) ])
               result)
       else Ok result
     else Ok result) ;;
  let result :=
    if include_reply_context then
      let reply := get post_data "reply" VNone in
      if truthy reply then
        let parent := get reply "parent" VNone in
        if truthy parent then
          let parent_author := get parent "author" VNone in
          let parent_record := get parent "record" VNone in
          let parent_text := get parent_record "text" empty in
          dict_set "reply_to"
            (VDict [ ("uri", get parent "uri" empty);
                     ("author", get parent_author "handle" empty);
                     ("text", parent_text) ])
            result
        else result
      else result
    else result in
  Ok result.

(** [format_notification]. *)
Definition format_notification (notif : value) : dict :=
  let author := get notif "author" VNone in
  let record := get notif "record" VNone in
    [ ("uri", get notif "uri" empty);
      ("cid", get notif "cid" empty);
      ("reason", get notif "reason" empty);
      ("author", VDict
         [ ("handle", get author "handle" empty);
           ("display_name",
              get author "display_name" (get author "displayName" empty)) ]);
      ("record_text", get record "text" empty);
      ("indexed_at", get notif "indexed_at" (get notif "indexedAt" empty));
      ("is_read", get notif "is_read" (get notif "isRead" (VBool false)));
      ("subject_uri",
         get notif "reason_subject" (get notif "reasonSubject" empty)) ].

(** ** Small helpers for the tools *)

(** [len(xs)] of a list. *)
Definition count {A} (xs : list A) : value := VInt (Z.of_nat (List.length xs)).

(** [[x for x in xs if p(x)]] where [p] may raise. *)
Fixpoint filter_result {A} (p : A -> result bool) (xs : list A)
  : result (list A) :=
  match xs with
  | [] => Ok []
  | x :: rest =>
      keep <-? p x ;;
      ys <-? filter_result p rest ;;
      Ok (if keep then x :: ys else ys)
  end.

(** [v == s] for a string [s]. *)
Definition eq_str (v : value) (s : string) : bool :=
  match v with
  | VStr t => String.eqb t s
  | _ => false
  end.

(** [obj.name or alt]. *)
Definition attr_or (obj : value) (name : string) (alt : result value)
  : result value :=
  v <-? attr obj name ;;
  if truthy v then Ok v else alt.

(** [hasattr(obj, name) and obj.name], as a condition. *)
Definition has_truthy (obj : value) (name : string) : bool :=
  hasattr obj name && truthy (getattr obj name VNone).

(** The failure envelope of the two text-submitting tools. *)
Definition text_failure (error : string) (e : exn) (input_length : Z) : value :=
  VDict
    [ ("success", VBool false);
      ("error", VStr error);
      ("details", VStr (exn_str e));
      ("input_length_approx", VInt input_length);
      ("limit", VInt 300);
      ("instruction",
         VStr "Text is likely too long. Please shorten it to under 300 characters and try again.") ].

(** ** Posting *)

(** [send_post]. *)
Definition send_post (text : string) (link_url link_title link_description
  : option string) : M value :=
  _ <- get_client ;;
  let input_length := len text in
  try_except
    (post <-
       (if nonempty link_url then
          let text_builder :=
            [Text text]
            ++ (if negb (endswith text " ") && negb (endswith text (String "010" ""))
                then [Text " "] else [])
            ++ [Link (text_of (if nonempty link_title then link_title else link_url))
                     (text_of link_url)] in
          invoke (SendPost (Built text_builder) None)
        else invoke (SendPost (Plain text) None)) ;;
     uri <- lift (attr post "uri") ;;
     cid <- lift (attr post "cid") ;;
     lift (json_dumps (VDict
       [ ("success", VBool true);
         ("uri", uri);
         ("cid", cid);
         ("message", VStr "Post sent successfully!") ])))
    (fun e => lift (json_dumps (text_failure "Failed to send post" e input_length))).

(** The reply reference [reply_to_post] builds for the fetched target
    post [parent]. *)
Definition reply_reference (parent : value) : result value :=
  uri <-? attr parent "uri" ;;
  cid <-? attr parent "cid" ;;
  let reply_ref :=
    [ ("root", VDict [("uri", uri); ("cid", cid)]);
      ("parent", VDict [("uri", uri); ("cid", cid)]) ] in
  record <-? attr parent "record" ;;
  if has_truthy record "reply" then
    reply <-? attr record "reply" ;;
    root <-? attr reply "root" ;;
    root_uri <-? attr root "uri" ;;
    root_cid <-? attr root "cid" ;;
    Ok (VDict (dict_set "root" (VDict [("uri", root_uri); ("cid", root_cid)])
                 reply_ref))
  else Ok (VDict reply_ref).

(** [reply_to_post]. *)
Definition reply_to_post (post_uri text : string) : M value :=
  _ <- get_client ;;
  let input_length := len text in
  try_except
    (parent_post <- invoke (GetPostThread post_uri None) ;;
     thread <- lift (attr parent_post "thread") ;;
     parent <- lift (attr thread "post") ;;
     reply_ref <- lift (reply_reference parent) ;;
     post <- invoke (SendPost (Plain text) (Some reply_ref)) ;;
     uri <- lift (attr post "uri") ;;
     cid <- lift (attr post "cid") ;;
     author <- lift (attr parent "author") ;;
     handle <- lift (attr author "handle") ;;
     lift (json_dumps (VDict
       [ ("success", VBool true);
         ("uri", uri);
         ("cid", cid);
         ("replied_to", handle);
         ("message", VStr ("Replied successfully to @" ++ str handle ++ "!")) ])))
    (fun e => lift (json_dumps (text_failure "Failed to reply to post" e input_length))).

(** [delete_post]. *)
Definition delete_post (post_uri : string) : M value :=
  _ <- get_client ;;
  _ <- invoke (DeletePost post_uri) ;;
  lift (json_dumps (VDict
    [ ("success", VBool true);
      ("deleted_uri", VStr post_uri);
      ("message", VStr "Post deleted successfully!") ])).

(** ** Browsing *)

(** [[format_post(item, include_reply_context=flag) for item in items]]
    as a list of values. *)
Definition format_posts (wrap : value -> value) (flag : bool)
  (items : list value) : result (list value) :=
  map_result (fun item => d <-? format_post (wrap item) flag ;; Ok (VDict d)) items.

(** [get_timeline]. *)
Definition get_timeline (limit : Z) (cursor : option string) : M value :=
  _ <- get_client ;;
  timeline <- invoke (GetTimeline (Z.min limit 100) cursor) ;;
  feed <- lift (attr timeline "feed") ;;
  items <- lift (iter feed) ;;
  posts <- lift (format_posts (fun item => item) true items) ;;
  next <- lift (attr timeline "cursor") ;;
  lift (json_dumps (VDict
    [ ("posts", VList posts);
      ("cursor", next);
      ("count", count posts) ])).

(** [get_author_feed]. *)
Definition get_author_feed (handle : string) (limit : Z)
  (cursor : option string) : M value :=
  _ <- get_client ;;
  feed <- invoke (GetAuthorFeed handle (Z.min limit 100) cursor) ;;
  items_v <- lift (attr feed "feed") ;;
  items <- lift (iter items_v) ;;
  posts <- lift (format_posts (fun item => item) true items) ;;
  next <- lift (attr feed "cursor") ;;
  lift (json_dumps (VDict
    [ ("author", VStr handle);
      ("posts", VList posts);
      ("cursor", next);
      ("count", count posts) ])).

(** The local [format_thread_post] of [get_post_thread].  [fuel] bounds
    the depth of the recursion. *)
Fixpoint format_thread_post (fuel : nat) (thread_item : value) : result value :=
  match fuel with
  | O => Raise (RecursionError "maximum recursion depth exceeded")
  | S fuel =>
      if negb (truthy thread_item) || negb (hasattr thread_item "post")
      then Ok VNone
      else
        post <-? attr thread_item "post" ;;
        result <-? format_post (VDict [("post", post)]) false ;;
        if has_truthy thread_item "replies" then
          replies <-? attr thread_item "replies" ;;
          items <-? iter replies ;;
          formatted <-?
            map_result (format_thread_post fuel)
              (filter (fun reply => truthy reply && hasattr reply "post") items) ;;
          Ok (VDict (dict_set "replies" (VList (filter truthy formatted)) result))
        else Ok (VDict result)
  end.

(** The [while parent and hasattr(parent, "post")] loop of
    [get_post_thread]: each post found is put in front of the chain. *)
Fixpoint parent_chain_loop (fuel : nat) (parent : value)
  (parent_chain : list value) : result (list value) :=
  match fuel with
  | O => Ok parent_chain
  | S fuel =>
      if truthy parent && hasattr parent "post" then
        post <-? attr parent "post" ;;
        d <-? format_post (VDict [("post", post)]) false ;;
        parent_chain_loop fuel (getattr parent "parent" VNone)
          (VDict d :: parent_chain)
      else Ok parent_chain
  end.

(** [get_post_thread].  The remote answer is a finite tree, so a descent
    of [height thread] steps reaches every node of it. *)
Definition get_post_thread (post_uri : string) (depth : Z) : M value :=
  _ <- get_client ;;
  thread <- invoke (GetPostThread post_uri (Some (Z.min depth 6))) ;;
  top <- lift (attr thread "thread") ;;
  main_post <- lift (format_thread_post (S (height top)) top) ;;
  parent_chain <-
    lift (if has_truthy top "parent" then
            parent <-? attr top "parent" ;;
            parent_chain_loop (S (height parent)) parent []
          else Ok []) ;;
  lift (json_dumps (VDict
    [ ("parent_chain", VList parent_chain);
      ("post", main_post) ])).

(** ** Reacting *)

(** [like_post]. *)
Definition like_post (post_uri : string) : M value :=
  _ <- get_client ;;
  thread <- invoke (GetPostThread post_uri None) ;;
  top <- lift (attr thread "thread") ;;
  post <- lift (attr top "post") ;;
  uri <- lift (attr post "uri") ;;
  cid <- lift (attr post "cid") ;;
  like <- invoke (Like uri cid) ;;
  like_uri <- lift (attr like "uri") ;;
  author <- lift (attr post "author") ;;
  handle <- lift (attr author "handle") ;;
  lift (json_dumps (VDict
    [ ("success", VBool true);
      ("liked_post", VStr post_uri);
      ("like_uri", like_uri);
      ("author", handle);
      ("message", VStr ("Liked @" ++ str handle ++ "'s post!")) ])).

(** [unlike_post]. *)
Definition unlike_post (post_uri : string) : M value :=
  _ <- get_client ;;
  _ <- invoke (Unlike post_uri) ;;
  lift (json_dumps (VDict
    [ ("success", VBool true);
      ("unliked_post", VStr post_uri);
      ("message", VStr "Unliked successfully!") ])).

(** [repost]. *)
Definition repost (post_uri : string) : M value :=
  _ <- get_client ;;
  thread <- invoke (GetPostThread post_uri None) ;;
  top <- lift (attr thread "thread") ;;
  post <- lift (attr top "post") ;;
  uri <- lift (attr post "uri") ;;
  cid <- lift (attr post "cid") ;;
  repost_ref <- invoke (Repost uri cid) ;;
  repost_uri <- lift (attr repost_ref "uri") ;;
  author <- lift (attr post "author") ;;
  handle <- lift (attr author "handle") ;;
  lift (json_dumps (VDict
    [ ("success", VBool true);
      ("reposted_post", VStr post_uri);
      ("repost_uri", repost_uri);
      ("author", handle);
      ("message", VStr ("Reposted @" ++ str handle ++ "'s post!")) ])).

(** [unrepost]. *)
Definition unrepost (post_uri : string) : M value :=
  _ <- get_client ;;
  _ <- invoke (Unrepost post_uri) ;;
  lift (json_dumps (VDict
    [ ("success", VBool true);
      ("unreposted_post", VStr post_uri);
      ("message", VStr "Unreposted successfully!") ])).

(** ** Notifications *)

(** [get_notifications]. *)
Definition get_notifications (limit : Z) (cursor filter_reason : option string)
  (unread_only : bool) : M value :=
  _ <- get_client ;;
  notifs <- invoke (ListNotifications (Z.min limit 100) cursor) ;;
  listed <- lift (attr notifs "notifications") ;;
  items <- lift (iter listed) ;;
  let notifications := map format_notification items in
  notifications <-
    lift (if nonempty filter_reason then
            filter_result
              (fun n => reason <-? subscript n "reason" ;;
                        Ok (eq_str reason (text_of filter_reason)))
              notifications
          else Ok notifications) ;;
  notifications <-
    (if unread_only then
       unread <-
         lift (filter_result
                 (fun n => is_read <-? subscript n "is_read" ;;
                           Ok (negb (truthy is_read)))
                 notifications) ;;
       _ <- (match unread with
             | [] => ret VNone
             | _ :: _ =>
                 let now := replace utcnow_isoformat "+00:00" "Z" in
                 invoke (UpdateSeen now)
             end) ;;
       ret unread
     else ret notifications) ;;
  next <- (if negb unread_only then lift (attr notifs "cursor") else ret VNone) ;;
  lift (json_dumps (VDict
    [ ("notifications", VList (map VDict notifications));
      ("cursor", next);
      ("count", count notifications) ])).


(** ** Profiles and follows *)

(** [get_profile]. *)
Definition get_profile (handle : string) : M value :=
  _ <- get_client ;;
  profile <- invoke (GetProfile handle) ;;
  did <- lift (attr profile "did") ;;
  h <- lift (attr profile "handle") ;;
  display_name <- lift (attr_or profile "display_name" (attr profile "handle")) ;;
  description <- lift (attr_or profile "description" (Ok empty)) ;;
  avatar <- lift (attr_or profile "avatar" (Ok empty)) ;;
  banner <- lift (attr_or profile "banner" (Ok empty)) ;;
  followers_count <- lift (attr_or profile "followers_count" (Ok (VInt 0))) ;;
  follows_count <- lift (attr_or profile "follows_count" (Ok (VInt 0))) ;;
  posts_count <- lift (attr_or profile "posts_count" (Ok (VInt 0))) ;;
  indexed_at <- lift (attr_or profile "indexed_at" (Ok empty)) ;;
  lift (json_dumps (VDict
    [ ("did", did);
      ("handle", h);
      ("display_name", display_name);
      ("description", description);
      ("avatar", avatar);
      ("banner", banner);
      ("followers_count", followers_count);
      ("follows_count", follows_count);
      ("posts_count", posts_count);
      ("indexed_at", indexed_at) ])).

(** [follow_user]. *)
Definition follow_user (handle : string) : M value :=
  _ <- get_client ;;
  profile <- invoke (GetProfile handle) ;;
  did <- lift (attr profile "did") ;;
  follow <- invoke (Follow did) ;;
  follow_uri <- lift (attr follow "uri") ;;
  lift (json_dumps (VDict
    [ ("success", VBool true);
      ("followed", VStr handle);
      ("follow_uri", follow_uri);
      ("message", VStr ("Now following @" ++ handle ++ "!")) ])).

(** [unfollow_user]. *)
Definition unfollow_user (handle : string) : M value :=
  _ <- get_client ;;
  profile <- invoke (GetProfile handle) ;;
  did <- lift (attr profile "did") ;;
  _ <- invoke (Unfollow did) ;;
  lift (json_dumps (VDict
    [ ("success", VBool true);
      ("unfollowed", VStr handle);
      ("message", VStr ("Unfollowed @" ++ handle ++ "!")) ])).

(** ** Search *)

(** [results.cursor if hasattr(results, "cursor") else None]. *)
Definition cursor_of (results : value) : result value :=
  if hasattr results "cursor" then attr results "cursor" else Ok VNone.

(** [search_posts]. *)
Definition search_posts (query : string) (limit : Z) (cursor : option string)
  : M value :=
  _ <- get_client ;;
  results <- invoke (SearchPosts query (Z.min limit 100) cursor) ;;
  found <- lift (attr results "posts") ;;
  items <- lift (iter found) ;;
  posts <- lift (format_posts (fun p => VDict [("post", p)]) false items) ;;
  next <- lift (cursor_of results) ;;
  lift (json_dumps (VDict
    [ ("query", VStr query);
      ("posts", VList posts);
      ("cursor", next);
      ("count", count posts) ])).

(** One entry of the list [search_users] builds. *)
Definition format_user (u : value) : result value :=
  did <-? attr u "did" ;;
  handle <-? attr u "handle" ;;
  display_name <-? attr_or u "display_name" (attr u "handle") ;;
  description <-? attr_or u "description" (Ok empty) ;;
  description <-? slice_to 200 description ;;
  avatar <-? attr_or u "avatar" (Ok empty) ;;
  Ok (VDict
    [ ("did", did);
      ("handle", handle);
      ("display_name", display_name);
      ("description", description);
      ("avatar", avatar) ]).

(** [search_users]. *)
Definition search_users (query : string) (limit : Z) (cursor : option string)
  : M value :=
  _ <- get_client ;;
  results <- invoke (SearchActors query (Z.min limit 100) cursor) ;;
  actors <- lift (attr results "actors") ;;
  items <- lift (iter actors) ;;
  users <- lift (map_result format_user items) ;;
  next <- lift (cursor_of results) ;;
  lift (json_dumps (VDict
    [ ("query", VStr query);
      ("users", VList users);
      ("cursor", next);
      ("count", count users) ])).

End Server.

(** ** The tools with a page-size parameter *)

(** The tools whose signature has a [limit]. *)
Inductive paged_tool : Type :=
| ToolTimeline
| ToolAuthorFeed (handle : string)
| ToolNotifications (filter_reason : option string) (unread_only : bool)
| ToolSearchPosts (query : string)
| ToolSearchUsers (query : string).

(** Running a paged tool with a given [limit] and [cursor]. *)
Definition run_paged (repr : value -> string) (environ : string -> option string)
  (remote : list call -> call -> result value) (now : string)
  (t : paged_tool) (limit : Z) (cursor : option string) : M value :=
  match t with
  | ToolTimeline => get_timeline repr environ remote limit cursor
  | ToolAuthorFeed handle => get_author_feed repr environ remote handle limit cursor
  | ToolNotifications filter_reason unread_only =>
      get_notifications environ remote now limit cursor filter_reason unread_only
  | ToolSearchPosts query => search_posts repr environ remote query limit cursor
  | ToolSearchUsers query => search_users environ remote query limit cursor
  end.



(** The remote call a paged tool issues for its page. *)
Definition page_call (t : paged_tool) (limit : Z) (cursor : option string) : call :=
  match t with
  | ToolTimeline => GetTimeline limit cursor
  | ToolAuthorFeed handle => GetAuthorFeed handle limit cursor
  | ToolNotifications _ _ => ListNotifications limit cursor
  | ToolSearchPosts query => SearchPosts query limit cursor
  | ToolSearchUsers query => SearchActors query limit cursor
  end.

End Bluesky.

(* ================================================================== *)
(** * The normalized-record contract, as the specification words it *)
(* ================================================================== *)

Module Schema.

Import Bluesky.

(** A source has a field when its key (mapping) or attribute (object) is
    there, whatever its value. *)
Definition find (obj : value) (name : string) : option value :=
  match obj with
  | VDict entries => assoc name entries
  | _ => find_attr obj name
  end.

(** The value of a field known under several spellings: the first
    spelling the source has, else the default. *)
Fixpoint resolve (obj : value) (names : list string) (default : value) : value :=
  match names with
  | [] => default
  | name :: rest =>
      match find obj name with
      | Some v => v
      | None => resolve obj rest default
      end
  end.

(** Where a field is read from: the entity itself, or the object under
    one of its keys. *)
Inductive source : Type :=
| Entity
| Under (name : string).

Definition select (entity : value) (src : source) : value :=
  match src with
  | Entity => entity
  | Under name => resolve entity [name] VNone
  end.

(** One output field: its path in the record, where it comes from, its
    spellings there, and its default. *)
Record field : Type := Field {
  path : list string;
  from : source;
  spellings : list string;
  default : value
}.

(** Looking a path up in a record. *)
Fixpoint lookup (d : dict) (p : list string) : option value :=
  match p with
  | [] => None
  | [k] => assoc k d
  | k :: rest =>
      match assoc k d with
      | Some (VDict inner) => lookup inner rest
      | _ => None
      end
  end.

Definition post_keys : list string :=
  ["uri"; "cid"; "author"; "text"; "created_at"; "likes"; "reposts";
   "replies"; "indexed_at"].

Definition post_author_keys : list string := ["handle"; "display_name"; "avatar"].

Definition notification_keys : list string :=
  ["uri"; "cid"; "reason"; "author"; "record_text"; "indexed_at"; "is_read";
   "subject_uri"].

Definition notification_author_keys : list string := ["handle"; "display_name"].

(** The fields of a formatted post whose default is the empty string,
    zero or false.  The author's display name is not among them. *)
Definition post_fields : list field :=
  [ Field ["uri"] Entity ["uri"] empty;
    Field ["cid"] Entity ["cid"] empty;
    Field ["author"; "handle"] (Under "author") ["handle"] empty;
    Field ["author"; "avatar"] (Under "author") ["avatar"] empty;
    Field ["text"] (Under "record") ["text"] empty;
    Field ["created_at"] (Under "record") ["created_at"; "createdAt"] empty;
    Field ["likes"] Entity ["like_count"; "likeCount"] (VInt 0);
    Field ["reposts"] Entity ["repost_count"; "repostCount"] (VInt 0);
    Field ["replies"] Entity ["reply_count"; "replyCount"] (VInt 0);
    Field ["indexed_at"] Entity ["indexed_at"; "indexedAt"] empty ].

(** The author's display name in a formatted post: after its two
    spellings comes the author's handle, and only then the empty string. *)
Definition post_display_name : field :=
  Field ["author"; "display_name"] (Under "author")
        ["display_name"; "displayName"; "handle"] empty.

Definition notification_fields : list field :=
  [ Field ["uri"] Entity ["uri"] empty;
    Field ["cid"] Entity ["cid"] empty;
    Field ["reason"] Entity ["reason"] empty;
    Field ["author"; "handle"] (Under "author") ["handle"] empty;
    Field ["author"; "display_name"] (Under "author")
          ["display_name"; "displayName"] empty;
    Field ["record_text"] (Under "record") ["text"] empty;
    Field ["indexed_at"] Entity ["indexed_at"; "indexedAt"] empty;
    Field ["is_read"] Entity ["is_read"; "isRead"] (VBool false);
    Field ["subject_uri"] Entity ["reason_subject"; "reasonSubject"] empty ].

(** The source lacks a field: it has none of its spellings. *)
Definition lacks (entity : value) (f : field) : Prop :=
  forall name, In name (spellings f) -> find (select entity (from f)) name = None.

(** A record fills a field as the contract asks: with the first spelling
    the source has, else with the default. *)
Definition fills (entity : value) (record : dict) (f : field) : Prop :=
  lookup record (path f)
  = Some (resolve (select entity (from f)) (spellings f) (default f)).

(** The post a [format_post] argument stands for: what is under its
    ["post"] key when it has one, else the argument itself. *)
Definition post_of (post_data : value) : value :=
  resolve post_data ["post"] post_data.

(** The same data with every object turned into a mapping of its
    attributes. *)
Fixpoint as_mapping (v : value) : value :=
  match v with
  | VList items => VList (map as_mapping items)
  | VDict entries => VDict (map (fun kv => (fst kv, as_mapping (snd kv))) entries)
  | VObj attrs => VDict (map (fun kv => (fst kv, as_mapping (snd kv))) attrs)
  | _ => v
  end.

(** A formatted notification passes the reason filter, when there is
    one. *)
Definition wanted (filter_reason : option string) (n : dict) : bool :=
  if nonempty filter_reason
  then eq_str (dict_get n "reason" VNone) (text_of filter_reason)
  else true.

(** A formatted notification is unread. *)
Definition unread (n : dict) : bool := negb (truthy (dict_get n "is_read" VNone)).

(** The plain text of the segments of a built post. *)
Fixpoint segments_text (segments : list segment) : string :=
  match segments with
  | [] => EmptyString
  | Text s :: rest => s ++ segments_text rest
  | Link text _ :: rest => text ++ segments_text rest
  end.

(** A reference to a post, as [reply_to_post] writes it. *)
Definition strong_ref (uri cid : value) : value :=
  VDict [("uri", uri); ("cid", cid)].

(** The reply reference a record carries, if it carries one. *)
Definition carried_reply (record : value) : option value :=
  match find_attr record "reply" with
  | Some reply => if truthy reply then Some reply else None
  | None => None
  end.

End Schema.

(* ================================================================== *)
(** * Sample environments and remotes *)
(* ================================================================== *)

Module Samples.

Import Bluesky.

(** An environment holding the two credentials. *)
Definition environ_with (handle password : option string) (name : string)
  : option string :=
  if String.eqb name "BLUESKY_HANDLE" then handle
  else if String.eqb name "BLUESKY_PASSWORD" then password
  else None.

Definition environ_ok : string -> option string :=
  environ_with (Some "alice.bsky.social") (Some "app-password").

Definition no_repr (v : value) : string := "".

Definition rate_limited : exn := Exn "RequestException" "429 Too Many Requests" true.

(** A remote where nothing works. *)
Definition remote_down (history : list call) (c : call) : result value :=
  Raise rate_limited.

(** A remote that accepts the login and refuses everything else. *)
Definition remote_login_only (history : list call) (c : call) : result value :=
  match c with
  | Login _ _ => Ok VNone
  | _ => Raise rate_limited
  end.

(** A post that replies within a thread rooted at another post. *)
Definition nested_post : value :=
  VObj [ ("uri", VStr "at://did:plc:bob/app.bsky.feed.post/2");
         ("cid", VStr "cid-2");
         ("author", VObj [("handle", VStr "bob.bsky.social")]);
         ("record", VObj
            [ ("text", VStr "a reply");
              ("reply", VObj
                 [ ("root", VObj [ ("uri", VStr "at://did:plc:carol/app.bsky.feed.post/1");
                                   ("cid", VStr "cid-1") ]);
                   ("parent", VObj [ ("uri", VStr "at://did:plc:carol/app.bsky.feed.post/1");
                                     ("cid", VStr "cid-1") ]) ]) ]) ].

(** One unread notification. *)
Definition a_notification : value :=
  VObj [ ("uri", VStr "at://did:plc:bob/app.bsky.feed.like/9");
         ("cid", VStr "cid-9");
         ("reason", VStr "like");
         ("author", VObj [("handle", VStr "bob.bsky.social")]);
         ("record", VObj []);
         ("indexed_at", VStr "2025-01-01T00:00:00Z");
         ("is_read", VBool false) ].

(** A remote that works: it answers every call with a plausible object,
    and hands out a next-page cursor with every page. *)
Definition remote_up (history : list call) (c : call) : result value :=
  match c with
  | GetPostThread _ _ => Ok (VObj [("thread", VObj [("post", nested_post)])])
  | SendPost _ _ =>
      Ok (VObj [ ("uri", VStr "at://did:plc:alice/app.bsky.feed.post/3");
                 ("cid", VStr "cid-3") ])
  | ListNotifications _ _ =>
      Ok (VObj [ ("notifications", VList [a_notification]);
                 ("cursor", VStr "page-2") ])
  | GetTimeline _ _ | GetAuthorFeed _ _ _ =>
      Ok (VObj [("feed", VList []); ("cursor", VStr "page-2")])
  | SearchPosts _ _ _ => Ok (VObj [("posts", VList []); ("cursor", VStr "page-2")])
  | SearchActors _ _ _ => Ok (VObj [("actors", VList []); ("cursor", VStr "page-2")])
  | _ => Ok VNone
  end.

(** A profile with most of its optional fields unset. *)
Definition a_profile : value :=
  VObj [ ("did", VStr "did:plc:bob");
         ("handle", VStr "bob.bsky.social");
         ("display_name", VNone);
         ("description", VNone);
         ("avatar", VStr "https://cdn.example/bob.jpg");
         ("banner", VNone);
         ("followers_count", VInt 3);
         ("follows_count", VNone);
         ("posts_count", VInt 0);
         ("indexed_at", VNone) ].

(** A remote that works, with fuller answers than [remote_up]: a
    profile, a record for what is created, one post in the feeds and one
    result in the searches, which come without a cursor. *)
Definition remote_full (history : list call) (c : call) : result value :=
  match c with
  | GetProfile _ => Ok a_profile
  | Like _ _ => Ok (VObj [("uri", VStr "at://did:plc:alice/app.bsky.feed.like/1")])
  | Repost _ _ => Ok (VObj [("uri", VStr "at://did:plc:alice/app.bsky.feed.repost/1")])
  | Follow _ => Ok (VObj [("uri", VStr "at://did:plc:alice/app.bsky.graph.follow/1")])
  | DeletePost _ | Unlike _ | Unrepost _ => Ok (VBool false)
  | GetTimeline _ _ | GetAuthorFeed _ _ _ =>
      Ok (VObj [ ("feed", VList [VObj [("post", nested_post)]]);
                 ("cursor", VStr "page-2") ])
  | SearchPosts _ _ _ => Ok (VObj [("posts", VList [nested_post])])
  | SearchActors _ _ _ => Ok (VObj [("actors", VList [a_profile])])
  | _ => remote_up history c
  end.





(** A feed item: a post with a link card, in reply to another post. *)
Definition a_feed_item : value :=
  VDict [ ("post", VDict [ ("uri", VStr "at://did:plc:bob/app.bsky.feed.post/2");
                           ("embed", VDict [ ("$type", VStr "app.bsky.embed.external#view");
                                             ("external", VDict [("uri", VStr "https://example.org")]) ]) ]);
          ("reply", VDict [ ("parent", VDict [("uri", VStr "at://did:plc:carol/app.bsky.feed.post/1")]) ]) ].

(** The world once the client is logged in. *)
Definition ready : world := World true true [].

(** The feed item, formatted with its reply context. *)
Definition formatted_feed_item : dict :=
  [("uri", VStr "at://did:plc:bob/app.bsky.feed.post/2"); (
   "cid", VStr "");
   ("author",
    VDict [("handle", VStr ""); ("display_name", VStr ""); ("avatar", VStr "")]);
   ("text", VStr ""); ("created_at", VStr ""); ("likes", VInt 0);
   ("reposts", VInt 0); ("replies", VInt 0); ("indexed_at", VStr "");
   ("embed",
    VDict
      [("type", VStr "link"); ("url", VStr "https://example.org");
       ("title", VStr ""); ("description", VStr "")]);
   ("reply_to",
    VDict
      [("uri", VStr "at://did:plc:carol/app.bsky.feed.post/1"); (
       "author", VStr ""); ("text", VStr "")])].

(** The nested post, formatted without reply context. *)
Definition formatted_nested_post : dict :=
  [("uri", VStr "at://did:plc:bob/app.bsky.feed.post/2"); (
   "cid", VStr "cid-2");
   ("author",
    VDict
      [("handle", VStr "bob.bsky.social"); ("display_name", VStr "bob.bsky.social");
       ("avatar", VStr "")]);
   ("text", VStr "a reply"); ("created_at", VStr ""); ("likes", VInt 0);
   ("reposts", VInt 0); ("replies", VInt 0); ("indexed_at", VStr "")].


(** What [get_notifications] returns on [remote_up], asked for unread likes. *)
Definition likes_envelope : value :=
  VDict
    [("notifications",
      VList
        [VDict
           [("uri", VStr "at://did:plc:bob/app.bsky.feed.like/9");
            ("cid", VStr "cid-9"); ("reason", VStr "like");
            ("author",
             VDict [("handle", VStr "bob.bsky.social"); ("display_name", VStr "")]);
            ("record_text", VStr ""); ("indexed_at", VStr "2025-01-01T00:00:00Z");
            ("is_read", VBool false); ("subject_uri", VStr "")]]);
     ("cursor", VNone); ("count", VInt 1)].


(** What [get_profile] returns on [remote_full]. *)
Definition profile_envelope : value :=
  VDict
    [("did", VStr "did:plc:bob"); ("handle", VStr "bob.bsky.social");
     ("display_name", VStr "bob.bsky.social"); ("description", VStr "");
     ("avatar", VStr "https://cdn.example/bob.jpg"); ("banner", VStr "");
     ("followers_count", VInt 3); ("follows_count", VInt 0); (
     "posts_count", VInt 0); ("indexed_at", VStr "")].




(** The world after a first login with the credentials of [environ_ok]. *)
Definition logged : world :=
  World true true [Login "alice.bsky.social" "app-password"].

(** A text of [n] characters. *)
Fixpoint text_of_length (n : nat) : string :=
  match n with
  | O => EmptyString
  | S k => String "a" (text_of_length k)
  end.

End Samples.

(* ================================================================== *)
(** * Properties of the proxy *)
(* ================================================================== *)

Section WrapperFacts.

Import Wrapper.

Lemma forward_stdout_unbroken (bs : list byte) :
  forall pre c,
    forward_stdout (stream_of bs) (Writer pre None c)
    = Writer (pre ++ filter kept bs) None c.
Proof.
  induction bs as [| b rest IH]; intros pre c; simpl.
  - now rewrite app_nil_r.
  - destruct (kept b); simpl.
    + unfold write_flush; simpl. rewrite IH. now rewrite <- app_assoc.
    + apply IH.
Qed.

Lemma forward_stdin_loop_unbroken (bs : list byte) :
  forall pre c,
    forward_stdin_loop (stream_of bs) (Writer pre None c)
    = Writer (pre ++ bs) None c.
Proof.
  induction bs as [| b rest IH]; intros pre c; simpl.
  - now rewrite app_nil_r.
  - unfold write_flush; simpl. rewrite IH. now rewrite <- app_assoc.
Qed.

Lemma passthrough_id (bs : list byte) : passthrough bs = bs.
Proof.
  unfold passthrough, forward_stdin, fresh_writer.
  now rewrite forward_stdin_loop_unbroken.
Qed.

(** The input pump closes the child's input however it ends. *)
Lemma forward_stdin_closes (events : reader) (child_in : writer) :
  closed (forward_stdin events child_in) = true.
Proof. reflexivity. Qed.

Lemma cr_strip_filter (bs : list byte) : cr_strip bs = filter kept bs.
Proof.
  unfold cr_strip, fresh_writer. now rewrite forward_stdout_unbroken.
Qed.

Lemma filter_kept_twice (bs : list byte) :
  filter kept (filter kept bs) = filter kept bs.
Proof.
  induction bs as [| b rest IH]; simpl; [reflexivity |].
  destruct (kept b) eqn:K; simpl; [rewrite K |]; now rewrite IH.
Qed.

(** Whatever the pipes do, the host receives a filtered prefix of what
    the child wrote: a failure cuts the stream short, it never lets a
    carriage return through or reorders bytes. *)
Lemma forward_stdout_prefix (events : reader) :
  forall out, exists delivered,
    written (forward_stdout events out) = written out ++ delivered
    /\ forallb kept delivered = true.
Proof.
  induction events as [| ev rest IH]; intros out; simpl.
  - exists []. now rewrite app_nil_r.
  - destruct ev as [b |].
    + destruct (kept b) eqn:K; simpl.
      * destruct (write_flush b out) as [out' |] eqn:W.
        -- destruct (IH out') as [d [Hd Hk]].
           assert (written out' = written out ++ [b]) as Hw.
           { unfold write_flush in W.
             destruct (budget out) as [[| k] |]; inversion W; reflexivity. }
           exists (b :: d). split.
           ++ rewrite Hd, Hw. now rewrite <- app_assoc.
           ++ simpl. now rewrite K.
        -- exists []. now rewrite app_nil_r.
      * apply IH.
    + exists []. now rewrite app_nil_r.
Qed.

(** C1: when the child emits the bytes [bs] and the host's pipe stays
    open, the output pump delivers to the host exactly [bs] without its
    carriage returns (every 0x0D, in a CRLF pair or alone), the other
    bytes unchanged and in their order. *)
Theorem forward_stdout_strips_every_cr :
  forall (bs pre : list byte) (c : bool),
    forward_stdout (stream_of bs) (Writer pre None c)
    = Writer (pre ++ filter (fun b => negb (Byte.eqb b x0d)) bs) None c.
Proof.
  intros bs pre c. apply forward_stdout_unbroken.
Qed.

(** C2: when the host sends the bytes [bs] and the child's pipe stays
    open, the input pump delivers to the child exactly [bs]. *)
Theorem forward_stdin_is_identity :
  forall (bs pre : list byte) (c : bool),
    forward_stdin (stream_of bs) (Writer pre None c)
    = Writer (pre ++ bs) None true.
Proof.
  intros bs pre c. unfold forward_stdin.
  now rewrite forward_stdin_loop_unbroken.
Qed.

(** C9: the carriage-return filter is idempotent. *)
Theorem cr_strip_idempotent :
  forall bs : list byte, cr_strip (cr_strip bs) = cr_strip bs.
Proof.
  intros bs. rewrite !cr_strip_filter. apply filter_kept_twice.
Qed.

(** The scenario of the specification: "hello\r\nworld\r\n". *)
Example cr_strip_hello_world :
  cr_strip [x68; x65; x6c; x6c; x6f; x0d; x0a; x77; x6f; x72; x6c; x64; x0d; x0a]
  = [x68; x65; x6c; x6c; x6f; x0a; x77; x6f; x72; x6c; x64; x0a].
Proof. reflexivity. Qed.



End WrapperFacts.

(* ================================================================== *)
(** * Properties of the formatters *)
(* ================================================================== *)

Section FormatFacts.

Import Bluesky Schema.

Variable repr : value -> string.

#[local] Arguments resolve : simpl never.

Lemma get_resolve (obj : value) (name : string) (d : value) :
  get obj name d = resolve obj [name] d.
Proof.
  destruct obj; reflexivity.
Qed.

Lemma post_of_eq (post_data : value) :
  match post_data with
  | VDict entries => dict_get entries "post" post_data
  | _ => getattr post_data "post" post_data
  end = post_of post_data.
Proof.
  destruct post_data; reflexivity.
Qed.

Lemma resolve_default (obj : value) (names : list string) (d : value) :
  (forall name, In name names -> find obj name = None) ->
  resolve obj names d = d.
Proof.
  induction names as [| n rest IH]; intros H; [reflexivity |].
  unfold resolve; fold resolve.
  rewrite (H n (or_introl eq_refl)). apply IH.
  intros name Hin. apply H. now right.
Qed.

Lemma fills_lacks (entity : value) (record : dict) (f : field) :
  fills entity record f -> lacks entity f ->
  lookup record (path f) = Some (default f).
Proof.
  unfold fills, lacks. intros Hf Hl. rewrite Hf.
  now rewrite resolve_default.
Qed.

Lemma iter_raises_type_error (v : value) (e : exn) :
  iter v = Raise e -> e = TypeError "object is not iterable".
Proof.
  destruct v; simpl; intros H; inversion H; reflexivity.
Qed.

(** A formatted post is the nine fixed entries, each resolved through its
    spellings, followed by the optional ones. *)
Lemma format_post_shape (post_data : value) (flag : bool) :
  let post := post_of post_data in
  let author := resolve post ["author"] VNone in
  let record := resolve post ["record"] VNone in
  match format_post repr post_data flag with
  | Ok r =>
      exists extra,
        r = [ ("uri", resolve post ["uri"] empty);
              ("cid", resolve post ["cid"] empty);
              ("author", VDict
                 [ ("handle", resolve author ["handle"] empty);
                   ("display_name",
                      resolve author ["display_name"; "displayName"; "handle"] empty);
                   ("avatar", resolve author ["avatar"] empty) ]);
              ("text", resolve record ["text"] empty);
              ("created_at", resolve record ["created_at"; "createdAt"] empty);
              ("likes", resolve post ["like_count"; "likeCount"] (VInt 0));
              ("reposts", resolve post ["repost_count"; "repostCount"] (VInt 0));
              ("replies", resolve post ["reply_count"; "replyCount"] (VInt 0));
              ("indexed_at", resolve post ["indexed_at"; "indexedAt"] empty) ]
            ++ extra
        /\ incl (keys extra) ["embed"; "reply_to"]
  | Raise e => e = TypeError "object is not iterable"
  end.
Proof.
  intros post author record. unfold format_post. cbv zeta.
  rewrite post_of_eq. fold post. rewrite !get_resolve.
  fold author. fold record.
  repeat (cbn [bind_result];
          match goal with
          | |- context [if ?c then _ else _] => destruct c
          | |- context [bind_result (iter ?x) _] =>
              let E := fresh "E" in destruct (iter x) eqn:E
          end);
    cbn [bind_result].
  all: try (eexists; split; [cbn; reflexivity | unfold incl; cbn; tauto]).
  all: eapply iter_raises_type_error; eassumption.
Qed.

(** With no embed in the post, [format_post] returns. *)
Lemma format_post_returns (post_data : value) (flag : bool) :
  truthy (resolve (post_of post_data) ["embed"] VNone) = false ->
  exists r, format_post repr post_data flag = Ok r.
Proof.
  intros H. unfold format_post. cbv zeta.
  rewrite post_of_eq, !get_resolve, H. cbn [bind_result]. eauto.
Qed.

(** C7, amended: a formatted post holds the nine fixed keys in a fixed
    order, possibly followed by [embed] and [reply_to], and its author
    holds three; a formatted notification holds eight fixed keys and its
    author two.  Every field is the first spelling the source has, else
    its default; so a field the source has under none of its spellings
    is the empty string, zero or false -- with one exception, the author's
    display name of a post, which falls back on the author's handle
    first.  [format_post] fails only with a [TypeError], on an embed whose
    images cannot be iterated. *)
Theorem formatted_records_have_fixed_fields :
  forall (post_data : value) (include_reply_context : bool) (notif : value),
    match format_post repr post_data include_reply_context with
    | Ok r =>
        exists extra,
          keys r = post_keys ++ extra
          /\ incl extra ["embed"; "reply_to"]
          /\ (exists a, assoc "author" r = Some (VDict a)
                        /\ keys a = post_author_keys)
          /\ Forall (fills (post_of post_data) r) (post_display_name :: post_fields)
          /\ Forall (fun f => lacks (post_of post_data) f ->
                              lookup r (path f) = Some (default f)) post_fields
    | Raise e => e = TypeError "object is not iterable"
    end
    /\ (let n := format_notification notif in
        keys n = notification_keys
        /\ (exists a, assoc "author" n = Some (VDict a)
                      /\ keys a = notification_author_keys)
        /\ Forall (fills notif n) notification_fields
        /\ Forall (fun f => lacks notif f ->
                            lookup n (path f) = Some (default f))
                  notification_fields).
Proof.
  intros post_data flag notif. split.
  - pose proof (format_post_shape post_data flag) as Shape. cbv zeta in Shape.
    destruct (format_post repr post_data flag) as [r | e]; [| exact Shape].
    destruct Shape as [extra [-> Hextra]].
    assert (Forall (fills (post_of post_data)
                      ([ ("uri", resolve (post_of post_data) ["uri"] empty);
                         ("cid", resolve (post_of post_data) ["cid"] empty);
                         ("author", VDict
                            [ ("handle", resolve (resolve (post_of post_data) ["author"] VNone) ["handle"] empty);
                              ("display_name",
                                 resolve (resolve (post_of post_data) ["author"] VNone)
                                   ["display_name"; "displayName"; "handle"] empty);
                              ("avatar", resolve (resolve (post_of post_data) ["author"] VNone) ["avatar"] empty) ]);
                         ("text", resolve (resolve (post_of post_data) ["record"] VNone) ["text"] empty);
                         ("created_at", resolve (resolve (post_of post_data) ["record"] VNone) ["created_at"; "createdAt"] empty);
                         ("likes", resolve (post_of post_data) ["like_count"; "likeCount"] (VInt 0));
                         ("reposts", resolve (post_of post_data) ["repost_count"; "repostCount"] (VInt 0));
                         ("replies", resolve (post_of post_data) ["reply_count"; "replyCount"] (VInt 0));
                         ("indexed_at", resolve (post_of post_data) ["indexed_at"; "indexedAt"] empty) ]
                       ++ extra))
                   (post_display_name :: post_fields)) as Hfills.
    { repeat constructor. }
    exists (keys extra). split; [| split; [| split; [| split]]].
    + unfold keys. now rewrite map_app.
    + exact Hextra.
    + eexists. split; reflexivity.
    + exact Hfills.
    + inversion Hfills as [| ? ? _ Hrest]; subst.
      eapply Forall_impl; [| exact Hrest].
      intros f Hf Hl. now apply fills_lacks with (entity := post_of post_data).
  - cbv zeta.
    assert (Forall (fills notif (format_notification notif)) notification_fields)
      as Hfills.
    { unfold format_notification. rewrite !get_resolve. repeat constructor. }
    split; [| split; [| split]].
    + reflexivity.
    + eexists. split; reflexivity.
    + exact Hfills.
    + eapply Forall_impl; [| exact Hfills].
      intros f Hf Hl. now apply fills_lacks with (entity := notif).
Qed.

End FormatFacts.

(** C7, as stated, fails.  The author below has a handle and no display
    name under either spelling, and the formatted post gives the handle
    as display name, not the empty string; and of two mappings the one
    with a link embed yields a record with one more key. *)
Lemma display_name_falls_back_on_handle :
  let author := VDict [("handle", VStr "alice")] in
  let post_data := VDict [("author", author)] in
  let linked := VDict [("embed", VDict [("$type", VStr "app.bsky.embed.external#view")])] in
  Schema.find author "display_name" = None
  /\ Schema.find author "displayName" = None
  /\ (exists r, Bluesky.format_post (fun _ => "") post_data false = Ok r
                /\ Schema.lookup r ["author"; "display_name"] = Some (VStr "alice"))
  /\ (exists r, Bluesky.format_post (fun _ => "") linked false = Ok r
                /\ keys r = Schema.post_keys ++ ["embed"])
  /\ (exists r, Bluesky.format_post (fun _ => "") (VDict []) false = Ok r
                /\ keys r = Schema.post_keys).
Proof.
  cbv zeta. repeat split; try (eexists; split; reflexivity).
Qed.

(** A field the source has with the value [None] is handed on as [None]:
    the default only stands in for a missing key or attribute. *)
Example none_is_passed_through :
  exists r,
    Bluesky.format_post (fun _ => "") (VObj [("like_count", VNone)]) false = Ok r
    /\ Schema.lookup r ["likes"] = Some VNone.
Proof.
  eexists. split; reflexivity.
Qed.

(* ================================================================== *)
(** * The bound on the descent through a thread *)
(* ================================================================== *)

Section FuelFacts.
Import Bluesky.
Variable repr : value -> string.

Lemma height_in (x : value) (items : list value) :
  In x items ->
  (height x <= fold_right (fun y h => Nat.max (height y) h) O items)%nat.
Proof.
  induction items as [| y rest IH]; simpl; [contradiction |].
  intros [-> | Hin]; [lia |]. specialize (IH Hin). lia.
Qed.

Lemma height_assoc (k : string) (entries : list (string * value)) (v : value) :
  assoc k entries = Some v ->
  (height v <= fold_right (fun kv h => Nat.max (height (snd kv)) h) O entries)%nat.
Proof.
  induction entries as [| [k' v'] rest IH]; simpl; [discriminate |].
  destruct (String.eqb k k').
  - intros H; inversion H; subst. lia.
  - intros H. specialize (IH H). lia.
Qed.

Lemma hasattr_object (obj : value) (name : string) :
  name <> "title" -> hasattr obj name = true -> exists attrs, obj = VObj attrs.
Proof.
  intros Hn. unfold hasattr, find_attr. destruct obj; simpl; try discriminate.
  - destruct (String.eqb_spec name "title"); [contradiction | discriminate].
  - eauto.
Qed.

Lemma find_attr_height (attrs : list (string * value)) (name : string) (v : value) :
  find_attr (VObj attrs) name = Some v -> (height v < height (VObj attrs))%nat.
Proof.
  simpl. intros H. apply height_assoc in H. lia.
Qed.

Lemma iter_height (v : value) (items : list value) (x : value) :
  iter v = Ok items -> In x items -> (height x <= height v)%nat.
Proof.
  destruct v; simpl; intros H; inversion H; subst; clear H.
  - intros Hin. assert (height x = O) as ->; [| lia].
    induction s as [| c rest IH]; simpl in Hin; [contradiction |].
    destruct Hin as [<- | Hin]; [reflexivity | now apply IH].
  - intros Hin. apply height_in in Hin. lia.
  - intros Hin. apply in_map_iff in Hin. destruct Hin as [kv [<- _]]. simpl. lia.
Qed.

Lemma map_result_ext {A B} (f g : A -> result B) (xs : list A) :
  (forall x, In x xs -> f x = g x) -> map_result f xs = map_result g xs.
Proof.
  induction xs as [| x rest IH]; intros H; simpl; [reflexivity |].
  rewrite (H x (or_introl eq_refl)). rewrite IH; [reflexivity |].
  intros y Hy. apply H. now right.
Qed.

Lemma format_thread_post_S (fuel : nat) (thread_item : value) :
  format_thread_post repr (S fuel) thread_item
  = if negb (truthy thread_item) || negb (hasattr thread_item "post")
    then Ok VNone
    else
      bind_result (attr thread_item "post") (fun post =>
      bind_result (format_post repr (VDict [("post", post)]) false) (fun result =>
      if has_truthy thread_item "replies" then
        bind_result (attr thread_item "replies") (fun replies =>
        bind_result (iter replies) (fun items =>
        bind_result
          (map_result (format_thread_post repr fuel)
             (filter (fun reply => truthy reply && hasattr reply "post") items))
          (fun formatted =>
             Ok (VDict (dict_set "replies" (VList (filter truthy formatted)) result)))))
      else Ok (VDict result))).
Proof. reflexivity. Qed.

(** Any fuel above the height of the thread gives the same result: the
    bound on the recursion is never the reason for an answer. *)
Lemma format_thread_post_fuel (fuel fuel' : nat) :
  forall thread_item,
    (height thread_item < fuel)%nat -> (height thread_item < fuel')%nat ->
    format_thread_post repr fuel thread_item
    = format_thread_post repr fuel' thread_item.
Proof.
  revert fuel'. induction fuel as [| fuel IH]; intros fuel' v H H'; [lia |].
  destruct fuel' as [| fuel']; [lia |].
  rewrite !format_thread_post_S.
  destruct (negb (truthy v) || negb (hasattr v "post")) eqn:C; [reflexivity |].
  apply orb_false_elim in C. destruct C as [_ C]. apply negb_false_iff in C.
  apply hasattr_object in C; [| discriminate]. destruct C as [attrs ->].
  destruct (attr (VObj attrs) "post") as [post |]; [| reflexivity]. cbn [bind_result].
  destruct (format_post repr (VDict [("post", post)]) false) as [result |];
    [| reflexivity]. cbn [bind_result].
  destruct (has_truthy (VObj attrs) "replies"); [| reflexivity].
  destruct (attr (VObj attrs) "replies") as [replies |] eqn:R; [| reflexivity].
  cbn [bind_result].
  destruct (iter replies) as [items |] eqn:I; [| reflexivity]. cbn [bind_result].
  rewrite (map_result_ext (format_thread_post repr fuel)
             (format_thread_post repr fuel')); [reflexivity |].
  intros x Hx. apply filter_In in Hx. destruct Hx as [Hx _].
  assert (height x < height (VObj attrs))%nat as Hlt.
  { unfold attr in R. destruct (find_attr (VObj attrs) "replies") as [r |] eqn:F;
      inversion R; subst.
    apply find_attr_height in F. pose proof (iter_height _ _ _ I Hx). lia. }
  apply IH; lia.
Qed.

(** The same for the walk up the parents. *)
Lemma parent_chain_loop_fuel (fuel fuel' : nat) :
  forall parent chain,
    (height parent < fuel)%nat -> (height parent < fuel')%nat ->
    parent_chain_loop repr fuel parent chain
    = parent_chain_loop repr fuel' parent chain.
Proof.
  revert fuel'. induction fuel as [| fuel IH]; intros fuel' v chain H H'; [lia |].
  destruct fuel' as [| fuel']; [lia |].
  cbn [parent_chain_loop].
  destruct (truthy v && hasattr v "post") eqn:C; [| reflexivity].
  apply andb_true_iff in C. destruct C as [_ C].
  apply hasattr_object in C; [| discriminate]. destruct C as [attrs ->].
  destruct (attr (VObj attrs) "post") as [post |]; [| reflexivity]. cbn [bind_result].
  destruct (format_post repr (VDict [("post", post)]) false) as [d |];
    [| reflexivity]. cbn [bind_result].
  assert (height (getattr (VObj attrs) "parent" VNone) < height (VObj attrs))%nat as Hlt.
  { unfold getattr. destruct (find_attr (VObj attrs) "parent") eqn:F.
    - now apply find_attr_height in F.
    - simpl. lia. }
  apply IH; lia.
Qed.
End FuelFacts.

(* ================================================================== *)
(** * Properties of the tools *)
(* ================================================================== *)

Section ServerFacts.

Import Bluesky Schema.

Variable repr : value -> string.
Variable environ : string -> option string.
Variable remote : list call -> call -> result value.
Variable now : string.

(** ** Computations that do not touch the world *)

Lemma silent_ret {A} (a : A) : silent (ret a).
Proof. intros w. reflexivity. Qed.

Lemma silent_lift {A} (r : result A) : silent (lift r).
Proof. intros w. reflexivity. Qed.

Lemma silent_bind {A B} (c : M A) (k : A -> M B) :
  silent c -> (forall a, silent (k a)) -> silent (bind c k).
Proof.
  intros Hc Hk w. unfold bind. specialize (Hc w).
  destruct (c w) as [[a | e] w1]; simpl in *; subst; [apply Hk | reflexivity].
Qed.

Ltac silence :=
  repeat first [ apply silent_lift | apply silent_ret
               | apply silent_bind; [| intros ?] ].

Lemma invoke_then_silent {A} (c : call) (k : value -> M A) (w : world) :
  (forall a, silent (k a)) ->
  snd (bind (invoke remote c) k w) = called w c.
Proof.
  intros Hk. unfold bind, invoke.
  destruct (remote (log w) c) as [a | e]; [apply Hk | reflexivity].
Qed.

Lemma after_get_client {A} (k : unit -> M A) (w w1 : world) :
  get_client environ remote w = (Ok tt, w1) ->
  bind (get_client environ remote) k w = k tt w1.
Proof.
  intros H. unfold bind. now rewrite H.
Qed.

(** ** Stepping through a computation *)

Lemma bind_lift {A B} (r : result A) (k : A -> M B) (w : world) :
  bind (lift r) k w = match r with Ok a => k a w | Raise e => (Raise e, w) end.
Proof. destruct r; reflexivity. Qed.

Lemma bind_ret {A B} (a : A) (k : A -> M B) (w : world) :
  bind (ret a) k w = k a w.
Proof. reflexivity. Qed.

Lemma bind_invoke {B} (c : call) (k : value -> M B) (w : world) :
  bind (invoke remote c) k w
  = match remote (log w) c with
    | Ok a => k a (called w c)
    | Raise e => (Raise e, called w c)
    end.
Proof. unfold bind, invoke, called. destruct (remote (log w) c); reflexivity. Qed.

Lemma bind_bind {A B C} (c : M A) (k : A -> M B) (k' : B -> M C) (w : world) :
  bind (bind c k) k' w = bind c (fun a => bind (k a) k') w.
Proof.
  unfold bind. destruct (c w) as [[a | e] w1]; reflexivity.
Qed.

Lemma try_except_world {A} (body : M A) (handler : exn -> M A) (w : world) :
  (forall e, silent (handler e)) ->
  snd (try_except body handler w) = snd (body w).
Proof.
  intros H. unfold try_except.
  destruct (body w) as [[a | e] w']; [reflexivity |].
  destruct (exn_is_Exception e); [apply H | reflexivity].
Qed.

Lemma silent_snd {A} (c : M A) (w : world) : silent c -> snd (c w) = w.
Proof. intros H. apply H. Qed.

(** ** What [except Exception] catches *)








Hypothesis remote_raises_exceptions :
  forall h c e, remote h c = Raise e -> exn_is_Exception e = true.








(** ** The reply reference *)

Lemma reply_reference_value (parent uri cid record : value) :
  attr parent "uri" = Ok uri ->
  attr parent "cid" = Ok cid ->
  attr parent "record" = Ok record ->
  match carried_reply record with
  | None =>
      reply_reference parent
      = Ok (VDict [("root", strong_ref uri cid); ("parent", strong_ref uri cid)])
  | Some reply =>
      forall root root_uri root_cid,
        attr reply "root" = Ok root ->
        attr root "uri" = Ok root_uri ->
        attr root "cid" = Ok root_cid ->
        reply_reference parent
        = Ok (VDict [("root", strong_ref root_uri root_cid);
                     ("parent", strong_ref uri cid)])
  end.
Proof.
  intros Hu Hc Hr. unfold reply_reference. rewrite Hu, Hc, Hr. cbn [bind_result].
  unfold carried_reply, has_truthy, hasattr, getattr.
  destruct (find_attr record "reply") as [reply |] eqn:F; [| reflexivity].
  destruct (truthy reply); [| reflexivity].
  assert (attr record "reply" = Ok reply) as Hreply
    by (unfold attr; now rewrite F).
  intros root root_uri root_cid H1 H2 H3.
  cbn [andb]. rewrite Hreply. cbn [bind_result].
  rewrite H1. cbn [bind_result]. rewrite H2, H3. reflexivity.
Qed.

Lemma reply_to_post_calls post_uri text w w1 parent_post thread parent ref :
  get_client environ remote w = (Ok tt, w1) ->
  remote (log w1) (GetPostThread post_uri None) = Ok parent_post ->
  attr parent_post "thread" = Ok thread ->
  attr thread "post" = Ok parent ->
  reply_reference parent = Ok ref ->
  log (snd (reply_to_post repr environ remote post_uri text w))
  = log w1 ++ [GetPostThread post_uri None; SendPost (Plain text) (Some ref)].
Proof.
  intros H R Ht Hp Href. unfold reply_to_post. rewrite (after_get_client _ _ _ H).
  rewrite try_except_world by (intros e; silence).
  rewrite bind_invoke, R. rewrite bind_lift, Ht. rewrite bind_lift, Hp.
  rewrite bind_lift, Href.
  rewrite invoke_then_silent by (intros a; silence).
  simpl. now rewrite <- app_assoc.
Qed.


(** ** Page sizes *)

Lemma paged_tool_calls t limit cursor w w1 :
  get_client environ remote w = (Ok tt, w1) ->
  exists rest,
    log (snd (run_paged repr environ remote now t limit cursor w))
    = log w1 ++ page_call t (Z.min limit 100) cursor :: rest
    /\ (rest = [] \/ rest = [UpdateSeen (replace now "+00:00" "Z")]).
Proof.
  intros H. destruct t as [| handle | filter_reason unread_only | query | query];
    unfold run_paged, page_call.
  - exists []. split; [| now left].
    unfold get_timeline. rewrite (after_get_client _ _ _ H).
    rewrite invoke_then_silent by (intros a; silence). reflexivity.
  - exists []. split; [| now left].
    unfold get_author_feed. rewrite (after_get_client _ _ _ H).
    rewrite invoke_then_silent by (intros a; silence). reflexivity.
  - unfold get_notifications. rewrite (after_get_client _ _ _ H).
    rewrite bind_invoke.
    destruct (remote (log w1) _) as [notifs | e]; [| exists []; split; [reflexivity | now left]].
    rewrite bind_lift. destruct (attr notifs "notifications") as [listed | e];
      [| exists []; split; [reflexivity | now left]].
    rewrite bind_lift. destruct (iter listed) as [items | e];
      [| exists []; split; [reflexivity | now left]].
    rewrite bind_lift.
    match goal with
    | |- context [match ?r with Ok _ => _ | Raise _ => _ end] =>
        destruct r as [notifications | e]; [| exists []; split; [reflexivity | now left]]
    end.
    destruct unread_only.
    + rewrite bind_bind, bind_lift.
      match goal with
      | |- context [match ?r with Ok _ => _ | Raise _ => _ end] =>
          destruct r as [unread | e]; [| exists []; split; [reflexivity | now left]]
      end.
      rewrite bind_bind. destruct unread as [| n unread].
      * exists []. split; [| now left].
        rewrite bind_ret. rewrite silent_snd by silence. reflexivity.
      * exists [UpdateSeen (replace now "+00:00" "Z")]. split; [| now right].
        rewrite invoke_then_silent by (intros a; silence).
        simpl. now rewrite <- app_assoc.
    + exists []. split; [| now left].
      rewrite silent_snd by silence. reflexivity.
  - exists []. split; [| now left].
    unfold search_posts. rewrite (after_get_client _ _ _ H).
    rewrite invoke_then_silent by (intros a; silence). reflexivity.
  - exists []. split; [| now left].
    unfold search_users. rewrite (after_get_client _ _ _ H).
    rewrite invoke_then_silent by (intros a; silence). reflexivity.
Qed.

Lemma get_post_thread_calls post_uri depth w w1 :
  get_client environ remote w = (Ok tt, w1) ->
  log (snd (get_post_thread repr environ remote post_uri depth w))
  = log w1 ++ [GetPostThread post_uri (Some (Z.min depth 6))].
Proof.
  intros H. unfold get_post_thread. rewrite (after_get_client _ _ _ H).
  rewrite invoke_then_silent by (intros a; silence). reflexivity.
Qed.

(** ** The notifications cursor *)

Lemma json_dumps_ok (v v' : value) : json_dumps v = Ok v' -> v' = v.
Proof.
  unfold json_dumps. destruct (serialisable v); intros H; inversion H.
  reflexivity.
Qed.

Ltac returns K :=
  rewrite bind_lift in K;
  match type of K with
  | match ?r with Ok _ => _ | Raise _ => _ end = _ =>
      let E := fresh "E" in destruct r eqn:E; [| discriminate K]
  end.

(** C10: when [get_notifications] returns, the [cursor] of its envelope
    is [None] if [unread_only] is set, whatever next-page cursor the
    remote gave; it is the remote's cursor if [unread_only] is not set. *)
Theorem unread_only_hides_cursor :
  forall (limit : Z) (cursor filter_reason : option string) (unread_only : bool)
         (w w1 w' : world) (notifs v : value),
    get_client environ remote w = (Ok tt, w1) ->
    remote (log w1) (ListNotifications (Z.min limit 100) cursor) = Ok notifs ->
    get_notifications environ remote now limit cursor filter_reason unread_only w
    = (Ok v, w') ->
    exists envelope,
      v = VDict envelope
      /\ assoc "cursor" envelope
         = if unread_only then Some VNone else find_attr notifs "cursor".
Proof.
  intros limit cursor filter_reason unread_only w w1 w' notifs v H R K.
  unfold get_notifications in K. rewrite (after_get_client _ _ _ H) in K.
  rewrite bind_invoke, R in K.
  do 3 returns K.
  destruct unread_only.
  - rewrite bind_bind in K. returns K. rewrite bind_bind in K.
    match type of K with
    | bind ?c _ _ = _ => destruct (c (called w1 (ListNotifications (Z.min limit 100) cursor)))
                           as [[x | e] w2] eqn:U; unfold bind in K; rewrite U in K;
                         [| discriminate K]
    end.
    cbn in K. unfold lift in K.
    match type of K with
    | (json_dumps ?d, _) = _ =>
        destruct (json_dumps d) as [v0 |] eqn:J; [| discriminate K];
        apply json_dumps_ok in J; inversion K; subst
    end.
    eexists. split; reflexivity.
  - rewrite bind_ret in K. cbn [negb] in K. returns K.
    unfold lift in K.
    match type of K with
    | (json_dumps ?d, _) = _ =>
        destruct (json_dumps d) as [v0 |] eqn:J; [| discriminate K];
        apply json_dumps_ok in J; inversion K; subst
    end.
    eexists. split; [reflexivity |]. cbn.
    match goal with
    | E : attr notifs "cursor" = Ok _ |- _ =>
        unfold attr in E; destruct (find_attr notifs "cursor"); inversion E
    end.
    reflexivity.
Qed.


(** ** The claims about the tools *)


(** C5: replying to a fetched post sends a reference whose parent is that
    post, and whose root is that post when its record carries no reply
    reference, and the root its reply reference declares when it carries
    one.  The target is fetched once and nothing else is: the declared
    root is taken as it stands. *)
Theorem reply_root_is_corrected_one_level :
  forall (post_uri text : string) (w w1 : world)
         (parent_post thread parent uri cid record : value),
    get_client environ remote w = (Ok tt, w1) ->
    remote (log w1) (GetPostThread post_uri None) = Ok parent_post ->
    attr parent_post "thread" = Ok thread ->
    attr thread "post" = Ok parent ->
    attr parent "uri" = Ok uri ->
    attr parent "cid" = Ok cid ->
    attr parent "record" = Ok record ->
    match carried_reply record with
    | None =>
        log (snd (reply_to_post repr environ remote post_uri text w))
        = log w1 ++ [ GetPostThread post_uri None;
                      SendPost (Plain text)
                        (Some (VDict [ ("root", strong_ref uri cid);
                                       ("parent", strong_ref uri cid) ])) ]
    | Some reply =>
        forall root root_uri root_cid,
          attr reply "root" = Ok root ->
          attr root "uri" = Ok root_uri ->
          attr root "cid" = Ok root_cid ->
          log (snd (reply_to_post repr environ remote post_uri text w))
          = log w1 ++ [ GetPostThread post_uri None;
                        SendPost (Plain text)
                          (Some (VDict [ ("root", strong_ref root_uri root_cid);
                                         ("parent", strong_ref uri cid) ])) ]
    end.
Proof.
  intros post_uri text w w1 parent_post thread parent uri cid record
         H R Ht Hp Hu Hc Hr.
  pose proof (reply_reference_value parent uri cid record Hu Hc Hr) as V.
  destruct (carried_reply record) as [reply |].
  - intros root root_uri root_cid H1 H2 H3.
    eapply reply_to_post_calls; eauto.
  - eapply reply_to_post_calls; eauto.
Qed.

(** C6, amended: each tool that takes a [limit] passes the smaller of
    [limit] and 100 to the remote call for its page, and issues no other
    call but, for notifications, the one that marks them seen.
    [get_post_thread] takes no page size: it takes a [depth], and passes
    the smaller of [depth] and 6. *)
Theorem page_size_is_clamped :
  forall (t : paged_tool) (limit : Z) (cursor : option string)
         (post_uri : string) (depth : Z) (w w1 : world),
    get_client environ remote w = (Ok tt, w1) ->
    (exists rest,
        log (snd (run_paged repr environ remote now t limit cursor w))
        = log w1 ++ page_call t (Z.min limit 100) cursor :: rest
        /\ (rest = [] \/ rest = [UpdateSeen (replace now "+00:00" "Z")]))
    /\ log (snd (get_post_thread repr environ remote post_uri depth w))
       = log w1 ++ [GetPostThread post_uri (Some (Z.min depth 6))].
Proof.
  intros t limit cursor post_uri depth w w1 H. split.
  - now apply paged_tool_calls.
  - now apply get_post_thread_calls.
Qed.

(** C8, amended: on a client that is not logged in yet, [get_client]
    raises the missing-credentials error, before any remote call, when
    either variable is unset or empty; when both are set and not empty it
    logs in once with them, and the client is marked as logged in if the
    login succeeds, while a failure of the login comes out as it is and
    leaves the client not logged in. *)
Theorem get_client_first_use :
  forall w : world,
    logged_in w = false ->
    let handle := environ "BLUESKY_HANDLE" in
    let password := environ "BLUESKY_PASSWORD" in
    (handle = None \/ handle = Some "" \/ password = None \/ password = Some "" ->
     get_client environ remote w
     = (Raise missing_credentials, World true false (log w)))
    /\ (forall h p,
          handle = Some h -> password = Some p -> h <> "" -> p <> "" ->
          get_client environ remote w
          = match remote (log w) (Login h p) with
            | Ok _ => (Ok tt, World true true (log w ++ [Login h p]))
            | Raise e => (Raise e, World true false (log w ++ [Login h p]))
            end).
Proof.
  intros w L handle password. subst handle password.
  destruct w as [c l g]. simpl in L. subst l. split.
  - intros Hmiss. unfold get_client. cbv zeta.
    assert (negb (nonempty (environ "BLUESKY_HANDLE"))
            || negb (nonempty (environ "BLUESKY_PASSWORD")) = true) as Hm.
    { destruct Hmiss as [E | [E | [E | E]]]; rewrite E; cbn;
        try reflexivity; apply orb_true_r. }
    destruct c; simpl; rewrite Hm; reflexivity.
  - intros h p Hh Hp Nh Np. unfold get_client. cbv zeta.
    rewrite Hh, Hp.
    assert (nonempty (Some h) = true) as Eh.
    { unfold nonempty; simpl. destruct (String.eqb_spec h ""); [contradiction | reflexivity]. }
    assert (nonempty (Some p) = true) as Ep.
    { unfold nonempty; simpl. destruct (String.eqb_spec p ""); [contradiction | reflexivity]. }
    destruct c; simpl; rewrite Eh, Ep; simpl; unfold invoke; simpl;
      destruct (remote g (Login h p)); reflexivity.
Qed.

End ServerFacts.

(* ================================================================== *)
(** * The tools on sample remotes *)
(* ================================================================== *)

Section Instances.

Import Bluesky Schema Samples.


(** The scenario of the specification: a text of 305 characters that the
    remote refuses comes back as a failure envelope naming 305 and 300. *)
Example send_post_305 :
  fst (send_post environ_ok remote_login_only (text_of_length 305) None None None fresh)
  = Ok (VDict
      [ ("success", VBool false);
        ("error", VStr "Failed to send post");
        ("details", VStr "429 Too Many Requests");
        ("input_length_approx", VInt 305);
        ("limit", VInt 300);
        ("instruction",
           VStr "Text is likely too long. Please shorten it to under 300 characters and try again.") ]).
Proof. vm_compute. reflexivity. Qed.


(** Replying to bob's post, itself a reply in carol's thread: the root
    sent is carol's post, the parent is bob's. *)
Lemma reply_root_is_corrected_one_level_witness :
  log (snd (reply_to_post no_repr environ_ok remote_up
              "at://did:plc:bob/app.bsky.feed.post/2" "thanks" ready))
  = log ready
    ++ [ GetPostThread "at://did:plc:bob/app.bsky.feed.post/2" None;
         SendPost (Plain "thanks")
           (Some (VDict
              [ ("root", strong_ref (VStr "at://did:plc:carol/app.bsky.feed.post/1")
                                    (VStr "cid-1"));
                ("parent", strong_ref (VStr "at://did:plc:bob/app.bsky.feed.post/2")
                                      (VStr "cid-2")) ])) ].
Proof.
  apply (reply_root_is_corrected_one_level no_repr environ_ok remote_up
           "at://did:plc:bob/app.bsky.feed.post/2" "thanks" ready ready
           (VObj [("thread", VObj [("post", nested_post)])])
           (VObj [("post", nested_post)])
           nested_post
           (VStr "at://did:plc:bob/app.bsky.feed.post/2") (VStr "cid-2")
           (getattr nested_post "record" VNone)
           eq_refl eq_refl eq_refl eq_refl eq_refl eq_refl eq_refl
           (VObj [ ("uri", VStr "at://did:plc:carol/app.bsky.feed.post/1");
                   ("cid", VStr "cid-1") ])
           (VStr "at://did:plc:carol/app.bsky.feed.post/1") (VStr "cid-1")
           eq_refl eq_refl eq_refl).
Defined.

(** Asking for 500 notifications, and for a thread with 500. *)
Lemma page_size_is_clamped_witness :
  (exists rest,
      log (snd (run_paged no_repr environ_ok remote_up "2025-01-01T00:00:00+00:00"
                  (ToolNotifications None true) 500 None ready))
      = log ready ++ page_call (ToolNotifications None true) (Z.min 500 100) None :: rest
      /\ (rest = [] \/ rest = [UpdateSeen (replace "2025-01-01T00:00:00+00:00" "+00:00" "Z")]))
  /\ log (snd (get_post_thread no_repr environ_ok remote_up "at://x" 500 ready))
     = log ready ++ [GetPostThread "at://x" (Some (Z.min 500 6))].
Proof.
  apply (page_size_is_clamped no_repr environ_ok remote_up
           "2025-01-01T00:00:00+00:00" (ToolNotifications None true) 500 None
           "at://x" 500 ready ready).
  reflexivity.
Defined.

(** C6, as stated, fails: asked for a thread with 500, [get_post_thread]
    calls the remote with 6, not with 100. *)
Lemma thread_depth_is_cut_to_6 :
  log (snd (get_post_thread no_repr environ_ok remote_up "at://x" 500 ready))
  = [GetPostThread "at://x" (Some 6)]
  /\ Z.min 500 100 = 100
  /\ 6 <> 100.
Proof.
  split; [reflexivity | split; [reflexivity | discriminate]].
Qed.

(** A first use with both credentials in the environment. *)
Lemma get_client_first_use_witness :
  (environ_ok "BLUESKY_HANDLE" = None \/ environ_ok "BLUESKY_HANDLE" = Some ""
   \/ environ_ok "BLUESKY_PASSWORD" = None \/ environ_ok "BLUESKY_PASSWORD" = Some "" ->
   get_client environ_ok remote_up fresh
   = (Raise missing_credentials, World true false (log fresh)))
  /\ (forall h p,
        environ_ok "BLUESKY_HANDLE" = Some h ->
        environ_ok "BLUESKY_PASSWORD" = Some p -> h <> "" -> p <> "" ->
        get_client environ_ok remote_up fresh
        = match remote_up (log fresh) (Login h p) with
          | Ok _ => (Ok tt, World true true (log fresh ++ [Login h p]))
          | Raise e => (Raise e, World true false (log fresh ++ [Login h p]))
          end).
Proof.
  apply (get_client_first_use environ_ok remote_up fresh). reflexivity.
Defined.

(** C8, as stated, fails twice over.  With both variables set, the handle
    to the empty string, [get_client] raises the missing-credentials
    error; and with both set and not empty, a remote that refuses the
    login leaves the client not logged in. *)
Lemma credentials_present_client_not_logged_in :
  get_client (environ_with (Some "") (Some "app-password")) remote_up fresh
  = (Raise missing_credentials, World true false [])
  /\ get_client environ_ok remote_down fresh
     = (Raise rate_limited,
        World true false [Login "alice.bsky.social" "app-password"]).
Proof. split; reflexivity. Qed.

(** The remote hands out the cursor [page-2] with the page; with
    [unread_only] set the envelope holds [None] in its place. *)
Lemma unread_only_hides_cursor_witness :
  exists envelope,
    VDict [ ("notifications", VList [VDict (format_notification a_notification)]);
            ("cursor", VNone);
            ("count", VInt 1) ]
    = VDict envelope
    /\ assoc "cursor" envelope
       = if true then Some VNone
         else find_attr (VObj [ ("notifications", VList [a_notification]);
                                ("cursor", VStr "page-2") ]) "cursor".
Proof.
  apply (unread_only_hides_cursor environ_ok remote_up "2025-01-01T00:00:00+00:00"
           25 None None true ready ready
           (World true true [ ListNotifications 25 None;
                              UpdateSeen "2025-01-01T00:00:00Z" ])
           (VObj [ ("notifications", VList [a_notification]);
                   ("cursor", VStr "page-2") ])
           (VDict [ ("notifications", VList [VDict (format_notification a_notification)]);
                    ("cursor", VNone);
                    ("count", VInt 1) ])).
  - reflexivity.
  - reflexivity.
  - reflexivity.
Defined.

End Instances.

(* ================================================================== *)
(** * More on the proxy *)
(* ================================================================== *)

Section WrapperMore.

Import Wrapper.

Lemma write_flush_written (b : byte) (out out' : writer) :
  write_flush b out = Some out' -> written out' = written out ++ [b].
Proof.
  unfold write_flush. destruct (budget out) as [[| k] |]; intros H; inversion H;
    reflexivity.
Qed.

Lemma kept_not_cr (b : byte) : kept b = true <-> b <> CR.
Proof.
  unfold kept. split.
  - intros H ->. discriminate.
  - intros H. destruct (Byte.eqb b CR) eqn:E; [| reflexivity].
    apply Byte.byte_dec_bl in E. contradiction.
Qed.

Lemma filter_kept_no_cr (bs : list byte) : ~ In CR (filter kept bs).
Proof.
  intros H. apply filter_In in H. destruct H as [_ H]. discriminate.
Qed.

(** X1: whatever the reads and writes do (end of stream, a read error, a
    broken pipe), what the output pump delivers to the host is a prefix
    of the child's bytes without their carriage returns: no carriage
    return ever gets through, nothing is reordered or made up. *)
Theorem forward_stdout_delivers_filtered_prefix :
  forall (events : reader) (out : writer),
  exists delivered lost,
    filter kept (payload events) = delivered ++ lost
    /\ written (forward_stdout events out) = written out ++ delivered
    /\ ~ In CR delivered.
Proof.
  intros events out.
  assert (exists delivered lost,
             filter kept (payload events) = delivered ++ lost
             /\ written (forward_stdout events out) = written out ++ delivered)
    as [delivered [lost [Hsplit Hw]]].
  { revert out. induction events as [| ev rest IH]; intros out; simpl.
    - exists [], []. rewrite !app_nil_r. repeat split.
    - destruct ev as [b |]; simpl.
      + destruct (kept b) eqn:K.
        * destruct (write_flush b out) as [out' |] eqn:W.
          -- destruct (IH out') as [d [l [Hs Hd]]].
             exists (b :: d), l. split; [simpl; now rewrite Hs |].
             rewrite Hd, (write_flush_written _ _ _ W). now rewrite <- app_assoc.
          -- exists [], (b :: filter kept (payload rest)).
             split; [reflexivity | now rewrite app_nil_r].
        * apply IH.
      + exists [], []. rewrite !app_nil_r. repeat split. }
  exists delivered, lost. repeat split; try assumption.
  intros Hin. apply (filter_kept_no_cr (payload events)).
  rewrite Hsplit. apply in_or_app. now left.
Qed.

(** X2: whatever the reads and writes do, the input pump delivers to the
    child a prefix of the host's bytes, unchanged, and leaves the child's
    input closed. *)
Theorem forward_stdin_delivers_prefix_and_closes :
  forall (events : reader) (child_in : writer),
  exists delivered lost,
    payload events = delivered ++ lost
    /\ written (forward_stdin events child_in) = written child_in ++ delivered
    /\ closed (forward_stdin events child_in) = true.
Proof.
  intros events child_in. unfold forward_stdin. simpl.
  revert child_in. induction events as [| ev rest IH]; intros out; simpl.
  - exists [], []. rewrite !app_nil_r. repeat split.
  - destruct ev as [b |]; simpl.
    + destruct (write_flush b out) as [out' |] eqn:W.
      * destruct (IH out') as [d [l [Hs [Hd _]]]].
        exists (b :: d), l. split; [simpl; now rewrite Hs |]. split; [| reflexivity].
        rewrite Hd, (write_flush_written _ _ _ W). now rewrite <- app_assoc.
      * exists [], (b :: payload rest). rewrite !app_nil_r. repeat split.
    + exists [], []. rewrite !app_nil_r. repeat split.
Qed.

(** X3: on a pipe that breaks after [k] writes, the output pump delivers
    the first [k] bytes that are not carriage returns and the input pump
    the first [k] bytes; nothing is written after the failure. *)
Theorem pumps_stop_when_the_pipe_breaks :
  forall (bs pre : list byte) (k : nat) (c : bool),
    written (forward_stdout (stream_of bs) (Writer pre (Some k) c))
    = pre ++ firstn k (filter kept bs)
    /\ written (forward_stdin (stream_of bs) (Writer pre (Some k) c))
       = pre ++ firstn k bs.
Proof.
  intros bs pre k c. split.
  - revert pre k. induction bs as [| b rest IH]; intros pre k; simpl.
    + now rewrite firstn_nil, app_nil_r.
    + destruct (kept b); [| apply IH].
      destruct k as [| k]; unfold write_flush; simpl.
      * now rewrite app_nil_r.
      * rewrite IH. now rewrite <- app_assoc.
  - unfold forward_stdin; simpl.
    revert pre k. induction bs as [| b rest IH]; intros pre k; simpl.
    + now rewrite firstn_nil, app_nil_r.
    + destruct k as [| k]; unfold write_flush; simpl.
      * now rewrite app_nil_r.
      * rewrite IH. now rewrite <- app_assoc.
Qed.

Lemma forward_stdout_broken (bs : list byte) (out : writer) :
  budget out = Some O -> forward_stdout (stream_of bs) out = out.
Proof.
  intros H. induction bs as [| b rest IH]; simpl; [reflexivity |].
  destruct (kept b); [| exact IH].
  unfold write_flush. now rewrite H.
Qed.

(** X4: pumping a stream in two pieces, the second into what the first
    left, is pumping it in one go, whatever the host's pipe does: the
    filter keeps no state between bytes. *)
Theorem forward_stdout_chunks :
  forall (first second : list byte) (out : writer),
    forward_stdout (stream_of (first ++ second)) out
    = forward_stdout (stream_of second) (forward_stdout (stream_of first) out).
Proof.
  intros first second. induction first as [| b rest IH]; intros out; simpl;
    [reflexivity |].
  destruct (kept b); [| apply IH].
  destruct (write_flush b out) as [out' |] eqn:W; [apply IH |].
  symmetry. apply forward_stdout_broken.
  unfold write_flush in W. destruct (budget out) as [[| k] |]; try discriminate.
  reflexivity.
Qed.

(** X5: the filter leaves a stream unchanged exactly when the stream holds
    no carriage return. *)
Theorem cr_strip_fixes_cr_free_streams :
  forall bs : list byte, cr_strip bs = bs <-> ~ In CR bs.
Proof.
  intros bs. rewrite cr_strip_filter. split.
  - intros H Hin. rewrite <- H in Hin. now apply filter_kept_no_cr in Hin.
  - intros H. induction bs as [| b rest IH]; simpl; [reflexivity |].
    assert (kept b = true) as ->.
    { apply kept_not_cr. intros ->. apply H. now left. }
    f_equal. apply IH. intros Hin. apply H. now right.
Qed.

(** X6: the filter removes as many bytes as the stream has carriage
    returns, and keeps the number of occurrences of every other byte,
    line feeds among them. *)
Theorem cr_strip_counts :
  forall bs : list byte,
    (List.length (cr_strip bs) + count_occ Byte.byte_eq_dec bs CR = List.length bs)%nat
    /\ (forall b, b <> CR ->
          count_occ Byte.byte_eq_dec (cr_strip bs) b
          = count_occ Byte.byte_eq_dec bs b).
Proof.
  intros bs. rewrite cr_strip_filter. split.
  - induction bs as [| b rest IH]; simpl; [reflexivity |].
    destruct (Byte.byte_eq_dec b CR) as [-> | N].
    + simpl. lia.
    + apply kept_not_cr in N. rewrite N. simpl. lia.
  - intros b Hb. induction bs as [| x rest IH]; simpl; [reflexivity |].
    destruct (kept x) eqn:K; simpl.
    + now rewrite IH.
    + destruct (Byte.byte_eq_dec x b) as [-> | N]; [| exact IH].
      apply kept_not_cr in Hb. congruence.
Qed.


End WrapperMore.

(* ================================================================== *)
(** * Nested lookup *)
(* ================================================================== *)

Section LookupFacts.

Import Bluesky Schema.

Variable repr : value -> string.

Lemma split_dots_nonempty (path : string) : split_dots path <> [].
Proof.
  destruct path as [| c rest]; simpl; [discriminate |].
  destruct (Ascii.eqb c "."); [discriminate |].
  destruct (split_dots rest); discriminate.
Qed.

Lemma split_dots_app (p q : string) :
  split_dots (p ++ String "." q) = split_dots p ++ split_dots q.
Proof.
  induction p as [| c rest IH]; simpl; [reflexivity |].
  destruct (Ascii.eqb c "."); [now rewrite IH |].
  rewrite IH. pose proof (split_dots_nonempty rest) as N.
  destruct (split_dots rest); [contradiction | reflexivity].
Qed.

Lemma split_dots_plain (name : string) :
  ~ In "."%char (list_ascii_of_string name) -> split_dots name = [name].
Proof.
  induction name as [| c rest IH]; simpl; intros H; [reflexivity |].
  destruct (Ascii.eqb_spec c "."); [exfalso; apply H; now left |].
  rewrite IH; [reflexivity |]. intros Hin. apply H. now right.
Qed.

(** One step of [_get_attr]: the lookup of one part. *)
Lemma _get_attr_loop_cons (obj : value) (part : string) (parts : list string)
  (d : value) :
  _get_attr_loop obj (part :: parts) d
  = match get obj part VNone with
    | VNone => d
    | _ => _get_attr_loop (get obj part VNone) parts d
    end.
Proof. destruct obj; reflexivity. Qed.

Lemma _get_attr_loop_app (ps qs : list string) (d : value) :
  ps <> [] ->
  forall obj,
    _get_attr_loop obj (ps ++ qs) d
    = match _get_attr_loop obj ps VNone with
      | VNone => d
      | inner => _get_attr_loop inner qs d
      end.
Proof.
  induction ps as [| p ps IH]; intros N obj; [contradiction |].
  rewrite <- app_comm_cons, !_get_attr_loop_cons.
  destruct ps as [| p' ps].
  - cbn [_get_attr_loop app]. destruct (get obj p VNone); reflexivity.
  - destruct (get obj p VNone) eqn:G; try reflexivity;
      apply IH; discriminate.
Qed.

Lemma _get_attr_loop_not_none (parts : list string) (d : value) :
  d <> VNone -> forall obj, obj <> VNone -> _get_attr_loop obj parts d <> VNone.
Proof.
  intros Hd. induction parts as [| p ps IH]; intros obj Ho; [exact Ho |].
  rewrite _get_attr_loop_cons.
  destruct (get obj p VNone) eqn:G; try exact Hd; apply IH; discriminate.
Qed.

(** X8: looking up the path [p.q] is looking up [p] and then [q] in what
    was found; when [p] leads to nothing the default is returned. *)
Theorem _get_attr_composes :
  forall (obj : value) (p q : string) (d : value),
    _get_attr obj (p ++ String "." q) d
    = match _get_attr obj p VNone with
      | VNone => d
      | inner => _get_attr inner q d
      end.
Proof.
  intros obj p q d. unfold _get_attr. rewrite split_dots_app.
  apply _get_attr_loop_app. apply split_dots_nonempty.
Qed.

Lemma _get_attr_not_none (obj : value) (path : string) (d : value) :
  d <> VNone -> _get_attr obj path d <> VNone.
Proof.
  intros Hd. unfold _get_attr.
  pose proof (split_dots_nonempty path) as N.
  destruct (split_dots path) as [| p ps]; [contradiction |].
  rewrite _get_attr_loop_cons.
  destruct (get obj p VNone) eqn:G; try exact Hd;
    apply _get_attr_loop_not_none; try assumption; discriminate.
Qed.

(** X9: [_get_attr] returns [None] only when its default is [None]: a
    field missing or holding [None] anywhere on the path gives the
    default. *)
Theorem _get_attr_none_only_by_default :
  forall (obj : value) (path : string) (d : value),
    _get_attr obj path d = VNone -> d = VNone.
Proof.
  intros obj path d H.
  destruct d; try reflexivity; exfalso;
    (eapply _get_attr_not_none; [| exact H]; discriminate).
Qed.

(** X10: on a name without a dot, [_get_attr] agrees with the formatters'
    [get] except on a field that holds [None], where it gives the
    default. *)
Theorem _get_attr_one_part :
  forall (obj : value) (name : string) (d : value),
    ~ In "."%char (list_ascii_of_string name) ->
    _get_attr obj name d
    = match get obj name d with
      | VNone => d
      | v => v
      end.
Proof.
  intros obj name d H. unfold _get_attr. rewrite (split_dots_plain _ H).
  rewrite _get_attr_loop_cons. cbn [_get_attr_loop].
  unfold get, dict_get, getattr.
  destruct obj as [| | | | | entries | attrs |];
    try (destruct (find_attr _ name) as [[] |]; try reflexivity; now destruct d).
  destruct (assoc name entries) as [[] |]; try reflexivity; now destruct d.
Qed.

End LookupFacts.

(* ================================================================== *)
(** * Optional keys and input styles *)
(* ================================================================== *)

Section StyleFacts.

Import Bluesky Schema.

Variable repr : value -> string.

Lemma assoc_as_mapping (k : string) (entries : list (string * value)) :
  assoc k (map (fun kv => (fst kv, as_mapping (snd kv))) entries)
  = option_map as_mapping (assoc k entries).
Proof.
  induction entries as [| [k' v] rest IH]; simpl; [reflexivity |].
  destruct (String.eqb k k'); [reflexivity | exact IH].
Qed.

Lemma get_as_mapping (obj : value) (k : string) (d : value) :
  as_mapping (get obj k d) = get (as_mapping obj) k (as_mapping d).
Proof.
  destruct obj; simpl; try reflexivity.
  - unfold getattr; simpl. destruct (String.eqb k "title"); reflexivity.
  - unfold dict_get. rewrite assoc_as_mapping.
    destruct (assoc k entries); reflexivity.
  - unfold getattr, dict_get; simpl. rewrite assoc_as_mapping.
    destruct (assoc k attrs); reflexivity.
Qed.

(** X11: a notification given as objects and the same notification given
    as mappings are formatted alike, at every level. *)
Theorem format_notification_ignores_style :
  forall notif : value,
    VDict (format_notification (as_mapping notif))
    = as_mapping (VDict (format_notification notif)).
Proof.
  intros notif. unfold format_notification.
  cbn [as_mapping map fst snd]. rewrite !get_as_mapping. reflexivity.
Qed.

Ltac keys_of H :=
  cbn in H; repeat (destruct H as [H | H]; try discriminate H); try contradiction.

(** X12: a formatted post has the key [reply_to] only when the reply
    context was asked for and the item has a reply with a parent, and the
    key [embed] only when the post has an embed, which is then rendered
    as a link or as images. *)
Theorem format_post_optional_keys :
  forall (post_data : value) (include_reply_context : bool) (r : dict),
    format_post repr post_data include_reply_context = Ok r ->
    (In "reply_to" (keys r) ->
       include_reply_context = true
       /\ truthy (get post_data "reply" VNone) = true
       /\ truthy (get (get post_data "reply" VNone) "parent" VNone) = true)
    /\ (In "embed" (keys r) ->
          truthy (get (post_of post_data) "embed" VNone) = true
          /\ exists e, assoc "embed" r = Some (VDict e)
                       /\ (assoc "type" e = Some (VStr "link")
                           \/ assoc "type" e = Some (VStr "images"))).
Proof.
  intros post_data flag r. unfold format_post. cbv zeta.
  rewrite post_of_eq.
  destruct (truthy (get (post_of post_data) "embed" VNone)) eqn:E.
  - match goal with
    | |- context [if ?c then _ else _] => destruct c
    end.
    + cbn [bind_result]. destruct flag.
      * destruct (truthy (get post_data "reply" VNone)) eqn:R;
          [destruct (truthy (get (get post_data "reply" VNone) "parent" VNone)) eqn:P |];
          intros H; inversion H; subst r; clear H;
          (split; intros Hin; [try (now repeat split); keys_of Hin
                              | split; [reflexivity |]; eexists; split;
                                [cbn; reflexivity | left; reflexivity]]).
      * intros H; inversion H; subst r; clear H.
        split; intros Hin; [keys_of Hin |].
        split; [reflexivity |]. eexists. split; [cbn; reflexivity | left; reflexivity].
    + match goal with
      | |- context [if ?c then _ else _] => destruct c
      end.
      * destruct (iter _) as [imgs | e]; cbn [bind_result]; [| discriminate].
        destruct flag.
        -- destruct (truthy (get post_data "reply" VNone)) eqn:R;
             [destruct (truthy (get (get post_data "reply" VNone) "parent" VNone)) eqn:P |];
             intros H; inversion H; subst r; clear H;
             (split; intros Hin; [try (now repeat split); keys_of Hin
                                 | split; [reflexivity |]; eexists; split;
                                   [cbn; reflexivity | right; reflexivity]]).
        -- intros H; inversion H; subst r; clear H.
           split; intros Hin; [keys_of Hin |].
           split; [reflexivity |]. eexists. split; [cbn; reflexivity | right; reflexivity].
      * cbn [bind_result]. destruct flag.
        -- destruct (truthy (get post_data "reply" VNone)) eqn:R;
             [destruct (truthy (get (get post_data "reply" VNone) "parent" VNone)) eqn:P |];
             intros H; inversion H; subst r; clear H;
             (split; intros Hin; [try (now repeat split); keys_of Hin | keys_of Hin]).
        -- intros H; inversion H; subst r; clear H.
           split; intros Hin; keys_of Hin.
  - cbn [bind_result]. destruct flag.
    + destruct (truthy (get post_data "reply" VNone)) eqn:R;
        [destruct (truthy (get (get post_data "reply" VNone) "parent" VNone)) eqn:P |];
        intros H; inversion H; subst r; clear H;
        (split; intros Hin; [try (now repeat split); keys_of Hin | keys_of Hin]).
    + intros H; inversion H; subst r; clear H.
      split; intros Hin; keys_of Hin.
Qed.

End StyleFacts.

(* ================================================================== *)
(** * More on the tools *)
(* ================================================================== *)

Section ToolFacts.

Import Bluesky Schema.

Variable repr : value -> string.
Variable environ : string -> option string.
Variable remote : list call -> call -> result value.
Variable now : string.

Ltac quiet :=
  repeat first [ apply silent_lift | apply silent_ret
               | apply silent_bind; [| intros ?] ].

(** X13: once [get_client] has succeeded the client is logged in, a
    further [get_client] changes nothing and calls nothing, and the one
    that succeeded issued at most one login. *)
Theorem get_client_is_stable :
  forall w w1 : world,
    get_client environ remote w = (Ok tt, w1) ->
    client w1 = true
    /\ logged_in w1 = true
    /\ get_client environ remote w1 = (Ok tt, w1)
    /\ (log w1 = log w \/ exists h p, log w1 = log w ++ [Login h p]).
Proof.
  intros [c l g] w1. unfold get_client. cbv zeta. simpl.
  destruct c, l; simpl;
    try (intros H; inversion H; subst; simpl; repeat split; now left).
  all: destruct (negb (nonempty (environ "BLUESKY_HANDLE"))
                 || negb (nonempty (environ "BLUESKY_PASSWORD")));
    [discriminate |];
    unfold invoke; simpl;
    destruct (remote g _); [| discriminate];
    intros H; inversion H; subst; simpl; repeat split; right; eauto.
Qed.





(** ** Posting *)

Lemma append_empty (s : string) : (s ++ "")%string = s.
Proof. induction s as [| c rest IH]; simpl; [reflexivity | now rewrite IH]. Qed.

Lemma endswith_app (s suffix : string) : endswith (s ++ suffix) suffix = true.
Proof.
  induction s as [| c rest IH].
  - cbn [append]. destruct suffix; simpl; [reflexivity |].
    now rewrite Ascii.eqb_refl, String.eqb_refl.
  - cbn [append]. unfold endswith; fold endswith. rewrite IH.
    now destruct (String.eqb (String c (rest ++ suffix)) suffix).
Qed.

(** X15: a post sent with a link is built from the text, followed by the
    link; the text before the link always ends with a space or a
    newline, a space being added when it does not, and the link is
    labelled with its title, or with its address when it has none. *)
Theorem send_post_separates_the_link :
  forall (text url : string) (link_title link_description : option string)
         (w w1 : world),
    get_client environ remote w = (Ok tt, w1) ->
    url <> "" ->
    exists lead,
      log (snd (send_post environ remote text (Some url) link_title
                  link_description w))
      = log w1
        ++ [SendPost
              (Built (lead ++ [Link (if nonempty link_title
                                     then text_of link_title else url) url]))
              None]
      /\ (segments_text lead = text \/ segments_text lead = (text ++ " ")%string)
      /\ endswith (segments_text lead) " "
         || endswith (segments_text lead) (String "010" "") = true.
Proof.
  intros text url link_title link_description w w1 H Hurl.
  assert (nonempty (Some url) = true) as Hn.
  { unfold nonempty; simpl. destruct (String.eqb_spec url ""); [contradiction | reflexivity]. }
  unfold send_post. rewrite (after_get_client _ _ _ _ _ H).
  rewrite try_except_world by (intros e; quiet).
  rewrite Hn.
  rewrite invoke_then_silent by (intros ?; quiet).
  destruct (negb (endswith text " ") && negb (endswith text (String "010" ""))) eqn:C.
  - exists [Text text; Text " "]. split; [| split].
    + simpl. now destruct (nonempty link_title).
    + right. reflexivity.
    + simpl. rewrite (endswith_app text " "). reflexivity.
  - exists [Text text]. split; [| split].
    + simpl. now destruct (nonempty link_title).
    + left. simpl. apply append_empty.
    + simpl. rewrite append_empty.
      destruct (endswith text " "); [reflexivity |].
      destruct (endswith text (String "010" "")); [reflexivity | discriminate].
Qed.



(** ** Reacting and following *)

Ltac stop_here :=
  eexists; split; [reflexivity | left; reflexivity].

Ltac pure_or_stop :=
  rewrite bind_lift;
  match goal with
  | |- context [match ?r with Ok _ => _ | Raise _ => _ end] =>
      let E := fresh "E" in destruct r eqn:E; [| stop_here]
  end.

(** X17: [like_post] and [repost] fetch the post first and react with the
    address and the content id of what was fetched; when the fetch fails
    or the post lacks either, no reaction is sent. *)
Theorem reactions_use_the_fetched_post :
  forall (post_uri : string) (w w1 : world),
    get_client environ remote w = (Ok tt, w1) ->
    (exists rest,
        log (snd (like_post repr environ remote post_uri w))
        = log w1 ++ GetPostThread post_uri None :: rest
        /\ (rest = []
            \/ exists thread top post uri cid,
                 remote (log w1) (GetPostThread post_uri None) = Ok thread
                 /\ attr thread "thread" = Ok top
                 /\ attr top "post" = Ok post
                 /\ attr post "uri" = Ok uri
                 /\ attr post "cid" = Ok cid
                 /\ rest = [Like uri cid]))
    /\ (exists rest,
          log (snd (repost repr environ remote post_uri w))
          = log w1 ++ GetPostThread post_uri None :: rest
          /\ (rest = []
              \/ exists thread top post uri cid,
                   remote (log w1) (GetPostThread post_uri None) = Ok thread
                   /\ attr thread "thread" = Ok top
                   /\ attr top "post" = Ok post
                   /\ attr post "uri" = Ok uri
                   /\ attr post "cid" = Ok cid
                   /\ rest = [Repost uri cid])).
Proof.
  intros post_uri w w1 H. split.
  - unfold like_post. rewrite (after_get_client _ _ _ _ _ H).
    rewrite bind_invoke.
    destruct (remote (log w1) (GetPostThread post_uri None)) as [thread | e] eqn:R;
      [| stop_here].
    do 4 pure_or_stop.
    rewrite invoke_then_silent by (intros ?; quiet).
    eexists. split; [simpl; rewrite <- app_assoc; reflexivity |].
    right. repeat eexists; eassumption.
  - unfold repost. rewrite (after_get_client _ _ _ _ _ H).
    rewrite bind_invoke.
    destruct (remote (log w1) (GetPostThread post_uri None)) as [thread | e] eqn:R;
      [| stop_here].
    do 4 pure_or_stop.
    rewrite invoke_then_silent by (intros ?; quiet).
    eexists. split; [simpl; rewrite <- app_assoc; reflexivity |].
    right. repeat eexists; eassumption.
Qed.

(** X18: [follow_user] and [unfollow_user] resolve the handle first and act
    on the identifier of the profile found; when the profile cannot be
    had, nothing else is called. *)
Theorem follows_use_the_resolved_did :
  forall (handle : string) (w w1 : world),
    get_client environ remote w = (Ok tt, w1) ->
    (exists rest,
        log (snd (follow_user environ remote handle w))
        = log w1 ++ GetProfile handle :: rest
        /\ (rest = []
            \/ exists profile did,
                 remote (log w1) (GetProfile handle) = Ok profile
                 /\ attr profile "did" = Ok did
                 /\ rest = [Follow did]))
    /\ (exists rest,
          log (snd (unfollow_user environ remote handle w))
          = log w1 ++ GetProfile handle :: rest
          /\ (rest = []
              \/ exists profile did,
                   remote (log w1) (GetProfile handle) = Ok profile
                   /\ attr profile "did" = Ok did
                   /\ rest = [Unfollow did])).
Proof.
  intros handle w w1 H. split.
  - unfold follow_user. rewrite (after_get_client _ _ _ _ _ H).
    rewrite bind_invoke.
    destruct (remote (log w1) (GetProfile handle)) as [profile | e] eqn:R;
      [| stop_here].
    pure_or_stop.
    rewrite invoke_then_silent by (intros ?; quiet).
    eexists. split; [simpl; rewrite <- app_assoc; reflexivity |].
    right. repeat eexists; eassumption.
  - unfold unfollow_user. rewrite (after_get_client _ _ _ _ _ H).
    rewrite bind_invoke.
    destruct (remote (log w1) (GetProfile handle)) as [profile | e] eqn:R;
      [| stop_here].
    pure_or_stop.
    rewrite invoke_then_silent by (intros ?; quiet).
    eexists. split; [simpl; rewrite <- app_assoc; reflexivity |].
    right. repeat eexists; eassumption.
Qed.

(** X19: [delete_post], [unlike_post] and [unrepost] make one call and
    report success whatever the remote answers, as long as it does not
    raise. *)
Theorem removals_report_success :
  forall (post_uri : string) (w w1 : world) (answer : value),
    get_client environ remote w = (Ok tt, w1) ->
    (remote (log w1) (DeletePost post_uri) = Ok answer ->
     delete_post environ remote post_uri w
     = (Ok (VDict [ ("success", VBool true);
                    ("deleted_uri", VStr post_uri);
                    ("message", VStr "Post deleted successfully!") ]),
        called w1 (DeletePost post_uri)))
    /\ (remote (log w1) (Unlike post_uri) = Ok answer ->
        unlike_post environ remote post_uri w
        = (Ok (VDict [ ("success", VBool true);
                       ("unliked_post", VStr post_uri);
                       ("message", VStr "Unliked successfully!") ]),
           called w1 (Unlike post_uri)))
    /\ (remote (log w1) (Unrepost post_uri) = Ok answer ->
        unrepost environ remote post_uri w
        = (Ok (VDict [ ("success", VBool true);
                       ("unreposted_post", VStr post_uri);
                       ("message", VStr "Unreposted successfully!") ]),
           called w1 (Unrepost post_uri))).
Proof.
  intros post_uri w w1 answer H. repeat split; intros R.
  - unfold delete_post. rewrite (after_get_client _ _ _ _ _ H).
    now rewrite bind_invoke, R.
  - unfold unlike_post. rewrite (after_get_client _ _ _ _ _ H).
    now rewrite bind_invoke, R.
  - unfold unrepost. rewrite (after_get_client _ _ _ _ _ H).
    now rewrite bind_invoke, R.
Qed.


(** ** Feeds *)




Ltac returned K :=
  rewrite bind_lift in K;
  match type of K with
  | match ?r with Ok _ => _ | Raise _ => _ end = _ =>
      let E := fresh "E" in destruct r eqn:E; [| discriminate K]
  end.

Ltac dumped K :=
  unfold lift in K;
  match type of K with
  | (json_dumps ?d, _) = _ =>
      let J := fresh "J" in
      destruct (json_dumps d) eqn:J; [| discriminate K];
      apply json_dumps_ok in J; inversion K; subst
  end.



(** ** Notifications *)

Lemma filter_result_total {A} (p : A -> result bool) (q : A -> bool)
  (xs : list A) :
  (forall x, In x xs -> p x = Ok (q x)) ->
  filter_result p xs = Ok (filter q xs).
Proof.
  induction xs as [| x rest IH]; intros H; simpl; [reflexivity |].
  rewrite (H x (or_introl eq_refl)). cbn [bind_result].
  rewrite IH by (intros y Hy; apply H; now right). cbn [bind_result].
  now destruct (q x).
Qed.

Lemma filter_twice {A} (p q : A -> bool) (xs : list A) :
  filter q (filter p xs) = filter (fun x => p x && q x) xs.
Proof.
  induction xs as [| x rest IH]; simpl; [reflexivity |].
  destruct (p x); simpl; [destruct (q x) |]; now rewrite IH.
Qed.

Lemma filter_all {A} (xs : list A) : filter (fun _ => true) xs = xs.
Proof.
  induction xs as [| x rest IH]; simpl; [reflexivity | now rewrite IH].
Qed.

Lemma formatted_in (items : list value) (n : dict) :
  In n (map format_notification items) -> exists item, n = format_notification item.
Proof.
  intros H. apply in_map_iff in H. destruct H as [item [<- _]]. eauto.
Qed.

(** X21: when [get_notifications] returns, it returns exactly the
    formatted notifications that pass the reason filter and, with
    [unread_only], are unread, in the remote's order, with their number
    as count; it marks notifications seen exactly when [unread_only] is
    set and something is returned. *)
Theorem get_notifications_selects :
  forall (limit : Z) (cursor filter_reason : option string) (unread_only : bool)
         (w w1 w' : world) (notifs listed v : value) (items : list value),
    get_client environ remote w = (Ok tt, w1) ->
    remote (log w1) (ListNotifications (Z.min limit 100) cursor) = Ok notifs ->
    attr notifs "notifications" = Ok listed ->
    iter listed = Ok items ->
    get_notifications environ remote now limit cursor filter_reason unread_only w
    = (Ok v, w') ->
    let selected :=
      filter (fun n => wanted filter_reason n && (negb unread_only || unread n))
             (map format_notification items) in
    exists next,
      v = VDict [ ("notifications", VList (map VDict selected));
                  ("cursor", next);
                  ("count", VInt (Z.of_nat (List.length selected))) ]
      /\ log w'
         = log w1
           ++ ListNotifications (Z.min limit 100) cursor
              :: (if unread_only
                  then match selected with
                       | [] => []
                       | _ :: _ => [UpdateSeen (replace now "+00:00" "Z")]
                       end
                  else []).
Proof.
  intros limit cursor filter_reason unread_only w w1 w' notifs listed v items
         H R Hl Hi K selected.
  unfold get_notifications in K. rewrite (after_get_client _ _ _ _ _ H) in K.
  rewrite bind_invoke, R in K. rewrite bind_lift, Hl in K. rewrite bind_lift, Hi in K.
  assert ((if nonempty filter_reason
           then filter_result
                  (fun n => bind_result (subscript n "reason")
                              (fun reason => Ok (eq_str reason (text_of filter_reason))))
                  (map format_notification items)
           else Ok (map format_notification items))
          = Ok (filter (wanted filter_reason) (map format_notification items)))
    as Hfirst.
  { unfold wanted. destruct (nonempty filter_reason).
    - apply filter_result_total. intros n Hn.
      apply formatted_in in Hn. destruct Hn as [item ->]. reflexivity.
    - now rewrite filter_all. }
  rewrite bind_lift in K. rewrite Hfirst in K.
  destruct unread_only.
  - rewrite bind_bind, bind_lift in K.
    rewrite (filter_result_total _ unread) in K.
    2:{ intros n Hn. apply filter_In in Hn. destruct Hn as [Hn _].
        apply formatted_in in Hn. destruct Hn as [item ->]. reflexivity. }
    rewrite filter_twice in K. fold selected in K.
    assert (selected
            = filter (fun n => wanted filter_reason n && unread n)
                     (map format_notification items)) as Hsel by reflexivity.
    rewrite <- Hsel in K. rewrite bind_bind in K.
    destruct selected as [| n more] eqn:S.
    + rewrite !bind_ret in K. cbn [negb] in K. rewrite bind_ret in K. dumped K.
      eexists. split; reflexivity.
    + rewrite bind_invoke in K.
      destruct (remote _ (UpdateSeen _)); [| discriminate K].
      rewrite !bind_ret in K. cbn [negb] in K. rewrite bind_ret in K. dumped K.
      eexists. split; [reflexivity |]. simpl. now rewrite <- app_assoc.
  - rewrite bind_ret in K. cbn [negb] in K.
    assert (selected = filter (wanted filter_reason) (map format_notification items))
      as Hsel.
    { unfold selected. apply filter_ext. intros n. cbn. apply andb_true_r. }
    rewrite <- Hsel in K.
    rewrite bind_lift in K.
    destruct (attr notifs "cursor") as [next |]; [| discriminate K].
    dumped K. eexists. split; reflexivity.
Qed.


(** ** Profiles and users *)


Lemma attr_or_filled (obj : value) (name : string) (d x : value) :
  attr_or obj name (Ok d) = Ok x -> truthy x = true \/ x = d.
Proof.
  unfold attr_or. destruct (attr obj name) as [v |]; [| discriminate].
  cbn [bind_result]. destruct (truthy v) eqn:T; intros H; inversion H; subst; auto.
Qed.


(** X23: when [get_profile] returns, the description, avatar, banner and
    index date are non-empty or the empty string, and the three counts
    are non-zero or 0: a field the remote left empty is never handed on
    as [None]. *)
Theorem get_profile_fills_blanks :
  forall (handle : string) (w w1 w' : world) (v : value),
    get_client environ remote w = (Ok tt, w1) ->
    get_profile environ remote handle w = (Ok v, w') ->
    exists d,
      v = VDict d
      /\ keys d = ["did"; "handle"; "display_name"; "description"; "avatar";
                   "banner"; "followers_count"; "follows_count"; "posts_count";
                   "indexed_at"]
      /\ Forall (fun field => exists x, assoc (fst field) d = Some x
                                        /\ (truthy x = true \/ x = snd field))
           [ ("description", empty); ("avatar", empty); ("banner", empty);
             ("followers_count", VInt 0); ("follows_count", VInt 0);
             ("posts_count", VInt 0); ("indexed_at", empty) ].
Proof.
  intros handle w w1 w' v H K.
  unfold get_profile in K. rewrite (after_get_client _ _ _ _ _ H) in K.
  rewrite bind_invoke in K.
  destruct (remote (log w1) (GetProfile handle)) as [profile |]; [| discriminate K].
  do 3 returned K.
  rewrite bind_lift in K.
  destruct (attr_or profile "description" (Ok empty)) eqn:A1; [| discriminate K].
  rewrite bind_lift in K.
  destruct (attr_or profile "avatar" (Ok empty)) eqn:A2; [| discriminate K].
  rewrite bind_lift in K.
  destruct (attr_or profile "banner" (Ok empty)) eqn:A3; [| discriminate K].
  rewrite bind_lift in K.
  destruct (attr_or profile "followers_count" (Ok (VInt 0))) eqn:A4; [| discriminate K].
  rewrite bind_lift in K.
  destruct (attr_or profile "follows_count" (Ok (VInt 0))) eqn:A5; [| discriminate K].
  rewrite bind_lift in K.
  destruct (attr_or profile "posts_count" (Ok (VInt 0))) eqn:A6; [| discriminate K].
  rewrite bind_lift in K.
  destruct (attr_or profile "indexed_at" (Ok empty)) eqn:A7; [| discriminate K].
  dumped K.
  apply attr_or_filled in A1, A2, A3, A4, A5, A6, A7.
  eexists. split; [reflexivity |]. split; [reflexivity |].
  repeat constructor; cbn [fst snd]; eexists; (split; [reflexivity | assumption]).
Qed.


(** ** Threads *)






(** ** Search *)



(** ** The two input styles of a post *)

Lemma falsy_as_mapping (v : value) :
  truthy v = false -> truthy (as_mapping v) = false.
Proof.
  destruct v as [| | | | items | entries | |]; simpl; intros H;
    try exact H; try discriminate H.
  - now destruct items.
  - now destruct entries.
Qed.

(** X27: a post without embed given as objects and the same post given as
    mappings are formatted alike, when no reply context is asked for. *)
Theorem format_post_ignores_style_without_embed :
  forall (post_data : value) (r : dict),
    truthy (get (post_of post_data) "embed" VNone) = false ->
    format_post repr post_data false = Ok r ->
    format_post repr (as_mapping post_data) false
    = Ok (map (fun kv => (fst kv, as_mapping (snd kv))) r).
Proof.
  intros post_data r E. unfold format_post. cbv zeta.
  change (match as_mapping post_data with
          | VDict entries => dict_get entries "post" (as_mapping post_data)
          | _ => getattr (as_mapping post_data) "post" (as_mapping post_data)
          end) with (get (as_mapping post_data) "post" (as_mapping post_data)).
  rewrite post_of_eq.
  assert (get (as_mapping post_data) "post" (as_mapping post_data)
          = as_mapping (post_of post_data)) as ->.
  { rewrite <- get_as_mapping. f_equal. exact (post_of_eq post_data). }
  rewrite E.
  assert (truthy (get (as_mapping (post_of post_data)) "embed" VNone) = false) as ->.
  { change VNone with (as_mapping VNone). rewrite <- get_as_mapping.
    now apply falsy_as_mapping. }
  cbn [bind_result]. intros H; inversion H; subst; clear H.
  cbn [map fst snd as_mapping]. rewrite !get_as_mapping. reflexivity.
Qed.

End ToolFacts.

(* ================================================================== *)
(** * More of the tools on sample remotes *)
(* ================================================================== *)

Section MoreInstances.

Import Bluesky Schema Samples.

(** A handle looked up under an author that is [None], with no default. *)
Lemma _get_attr_none_only_by_default_witness :
  _get_attr (VDict [("author", VNone)]) "author.handle" VNone = VNone
  /\ VNone = VNone.
Proof.
  split; [reflexivity |].
  exact (_get_attr_none_only_by_default (VDict [("author", VNone)]) "author.handle"
           VNone eq_refl).
Defined.

(** The address of the sample post, looked up by name. *)
Lemma _get_attr_one_part_witness :
  _get_attr nested_post "uri" empty =
  match get nested_post "uri" empty with
  | VNone => empty
  | VBool b => VBool b
  | VInt n => VInt n
  | VStr s => VStr s
  | VList items => VList items
  | VDict entries => VDict entries
  | VObj attrs => VObj attrs
  | VMethod name0 => VMethod name0
  end.
Proof.
  apply (_get_attr_one_part nested_post "uri" empty). cbn. intuition discriminate.
Defined.

(** The sample feed item, which has a link card and a parent. *)
Lemma format_post_optional_keys_witness :
  (In "reply_to" (keys formatted_feed_item) ->
   true = true /\
   truthy (get a_feed_item "reply" VNone) = true /\
   truthy (get (get a_feed_item "reply" VNone) "parent" VNone) = true) /\
  (In "embed" (keys formatted_feed_item) ->
   truthy (get (post_of a_feed_item) "embed" VNone) = true /\
   exists e : list (string * value),
     assoc "embed" formatted_feed_item = Some (VDict e) /\
     (assoc "type" e = Some (VStr "link") \/ assoc "type" e = Some (VStr "images"))).
Proof.
  exact (format_post_optional_keys no_repr a_feed_item true formatted_feed_item
             eq_refl).
Defined.

(** A first use that logs in, and the use after it. *)
Lemma get_client_is_stable_witness :
  client logged = true /\
  logged_in logged = true /\
  get_client environ_ok remote_up logged = (Ok tt, logged) /\
  (log logged = log fresh \/
   exists h p : string, log logged = log fresh ++ [Login h p]).
Proof.
  exact (get_client_is_stable environ_ok remote_up fresh logged eq_refl).
Defined.


(** A text without trailing space, posted with a link that has no title. *)
Lemma send_post_separates_the_link_witness :
  exists lead : list segment,
    log
      (snd
         (send_post environ_ok remote_up "read this" (Some "https://example.org")
            None None ready)) =
    log ready ++
    [SendPost
       (Built
          (lead ++
           [Link (if nonempty None then text_of None else "https://example.org")
              "https://example.org"]))
       None] /\
    (segments_text lead = "read this" \/
     segments_text lead = ("read this" ++ " ")%string) /\
    endswith (segments_text lead) " "
    || endswith (segments_text lead) (String "010" "") = true.
Proof.
  apply (send_post_separates_the_link environ_ok remote_up "read this"
           "https://example.org" None None ready ready).
  - reflexivity.
  - discriminate.
Defined.


(** Liking and reposting on a remote that works. *)
Lemma reactions_use_the_fetched_post_witness :
  (exists rest : list call,
     log (snd (like_post no_repr environ_ok remote_full "at://x" ready)) =
     log ready ++ GetPostThread "at://x" None :: rest /\
     (rest = [] \/
      exists thread top post uri cid : value,
        remote_full (log ready) (GetPostThread "at://x" None) = Ok thread /\
        attr thread "thread" = Ok top /\
        attr top "post" = Ok post /\
        attr post "uri" = Ok uri /\
        attr post "cid" = Ok cid /\ rest = [Like uri cid])) /\
  exists rest : list call,
    log (snd (repost no_repr environ_ok remote_full "at://x" ready)) =
    log ready ++ GetPostThread "at://x" None :: rest /\
    (rest = [] \/
     exists thread top post uri cid : value,
       remote_full (log ready) (GetPostThread "at://x" None) = Ok thread /\
       attr thread "thread" = Ok top /\
       attr top "post" = Ok post /\
       attr post "uri" = Ok uri /\
       attr post "cid" = Ok cid /\ rest = [Repost uri cid]).
Proof.
  exact (reactions_use_the_fetched_post no_repr environ_ok remote_full "at://x" ready
             ready eq_refl).
Defined.

(** Following and unfollowing on a remote that works. *)
Lemma follows_use_the_resolved_did_witness :
  (exists rest : list call,
     log (snd (follow_user environ_ok remote_full "bob.bsky.social" ready)) =
     log ready ++ GetProfile "bob.bsky.social" :: rest /\
     (rest = [] \/
      exists profile did : value,
        remote_full (log ready) (GetProfile "bob.bsky.social") = Ok profile /\
        attr profile "did" = Ok did /\ rest = [Follow did])) /\
  exists rest : list call,
    log (snd (unfollow_user environ_ok remote_full "bob.bsky.social" ready)) =
    log ready ++ GetProfile "bob.bsky.social" :: rest /\
    (rest = [] \/
     exists profile did : value,
       remote_full (log ready) (GetProfile "bob.bsky.social") = Ok profile /\
       attr profile "did" = Ok did /\ rest = [Unfollow did]).
Proof.
  exact (follows_use_the_resolved_did environ_ok remote_full "bob.bsky.social" ready
             ready eq_refl).
Defined.

(** A remote that answers [False] to the three removals. *)
Lemma removals_report_success_witness :
  (remote_full (log ready) (DeletePost "at://x") = Ok (VBool false) ->
   delete_post environ_ok remote_full "at://x" ready =
   (Ok
      (VDict
         [("success", VBool true); ("deleted_uri", VStr "at://x");
          ("message", VStr "Post deleted successfully!")]),
    called ready (DeletePost "at://x"))) /\
  (remote_full (log ready) (Unlike "at://x") = Ok (VBool false) ->
   unlike_post environ_ok remote_full "at://x" ready =
   (Ok
      (VDict
         [("success", VBool true); ("unliked_post", VStr "at://x");
          ("message", VStr "Unliked successfully!")]),
    called ready (Unlike "at://x"))) /\
  (remote_full (log ready) (Unrepost "at://x") = Ok (VBool false) ->
   unrepost environ_ok remote_full "at://x" ready =
   (Ok
      (VDict
         [("success", VBool true); ("unreposted_post", VStr "at://x");
          ("message", VStr "Unreposted successfully!")]),
    called ready (Unrepost "at://x"))).
Proof.
  exact (removals_report_success environ_ok remote_full "at://x" ready ready (VBool
             false) eq_refl).
Defined.


(** Unread likes, one of them on the remote. *)
Lemma get_notifications_selects_witness :
  let selected :=
    filter (fun n : dict => wanted (Some "like") n && (negb true || unread n))
      (map format_notification [a_notification])
    in
  exists next : value,
    likes_envelope =
    VDict
      [("notifications", VList (map VDict selected)); (
       "cursor", next); ("count", VInt (Z.of_nat (Datatypes.length selected)))] /\
    log
      {|
        client := true;
        logged_in := true;
        log := [ListNotifications 25 None; UpdateSeen "2025-01-01T00:00:00Z"]
      |} =
    log ready ++
    ListNotifications (Z.min 25 100) None
    :: match selected with
       | [] => []
       | _ :: _ => [UpdateSeen (replace "2025-01-01T00:00:00+00:00" "+00:00" "Z")]
       end.
Proof.
  exact (get_notifications_selects environ_ok remote_up "2025-01-01T00:00:00+00:00" 25
             None (Some "like") true ready ready (World true true [ListNotifications
             25 None; UpdateSeen "2025-01-01T00:00:00Z"]) (VObj [ ("notifications",
             VList [a_notification]); ("cursor", VStr "page-2") ]) (VList
             [a_notification]) likes_envelope [a_notification] eq_refl eq_refl eq_refl
             eq_refl eq_refl).
Defined.


(** A profile with most optional fields unset. *)
Lemma get_profile_fills_blanks_witness :
  exists d : list (string * value),
    profile_envelope = VDict d /\
    keys d =
    ["did"; "handle"; "display_name"; "description"; "avatar"; "banner";
     "followers_count"; "follows_count"; "posts_count"; "indexed_at"] /\
    Forall
      (fun field : string * value =>
       exists x : value,
         assoc (fst field) d = Some x /\ (truthy x = true \/ x = snd field))
      [("description", empty); ("avatar", empty); ("banner", empty);
       ("followers_count", VInt 0); ("follows_count", VInt 0);
       ("posts_count", VInt 0); ("indexed_at", empty)].
Proof.
  exact (get_profile_fills_blanks environ_ok remote_full "bob.bsky.social" ready ready
             (World true true [GetProfile "bob.bsky.social"]) profile_envelope eq_refl
             eq_refl).
Defined.




(** The sample post, given as objects. *)
Lemma format_post_ignores_style_without_embed_witness :
  format_post no_repr (as_mapping (VObj [("post", nested_post)])) false =
  Ok
    (map (fun kv : string * value => (fst kv, as_mapping (snd kv)))
       formatted_nested_post).
Proof.
  exact (format_post_ignores_style_without_embed no_repr (VObj [("post",
             nested_post)]) formatted_nested_post eq_refl eq_refl).
Defined.

End MoreInstances.
